(** * organize.py: a file organizer with a move log and undo

    A shallow embedding of [organize.py] over a model of the POSIX file
    system calls it makes, and the properties of its path allocator, move
    log store, organizer and undo engine.

    Layout: strings and [os.path]; the file tree and the [os]/[shutil]/[json]
    calls; the program, function by function under the names of the source;
    then the lemmas. *)

From Stdlib Require Import Ascii.
From stdpp Require Import base option list strings pretty gmap.

Set Warnings "-register-all".

(** ** Strings and [os.path] (posixpath) *)

Module Path.

Definition sep : ascii := "/"%char.
Definition extsep : ascii := "."%char.

Definition is_sep (c : ascii) : bool := bool_decide (c = sep).

Definition startswith_sep (s : string) : bool :=
  match s with String c _ => is_sep c | "" => false end.

Fixpoint endswith_sep (s : string) : bool :=
  match s with
  | "" => false
  | String c "" => is_sep c
  | String _ s' => endswith_sep s'
  end.

(** [os.path.join(a, b)] *)
Definition join (a b : string) : string :=
  if startswith_sep b then b
  else if bool_decide (a = "") || endswith_sep a then a +:+ b
  else a +:+ String sep b.

(** [p.split("/")]: the maximal separator-free pieces, in order. *)
Fixpoint pieces (p : string) : list string :=
  match p with
  | "" => [""]
  | String c s =>
      if is_sep c then "" :: pieces s
      else match pieces s with
           | h :: t => String c h :: t
           | [] => [String c ""]
           end
  end.

(** [(p[:i], p[i:])] for [i = p.rfind("/") + 1]. *)
Fixpoint rpartition (p : string) : string * string :=
  match p with
  | "" => ("", "")
  | String c s =>
      let '(h, t) := rpartition s in
      if bool_decide (h = "") then
        if is_sep c then (String c "", t) else ("", String c t)
      else (String c h, t)
  end.

Fixpoint all_sep (s : string) : bool :=
  match s with "" => true | String c s' => is_sep c && all_sep s' end.

(** [s.rstrip("/")] *)
Fixpoint rstrip_sep (s : string) : string :=
  match s with
  | "" => ""
  | String c s' =>
      match rstrip_sep s' with
      | "" => if is_sep c then "" else String c ""
      | r => String c r
      end
  end.

(** [os.path.split(p)] *)
Definition split (p : string) : string * string :=
  let '(head, tail) := rpartition p in
  (if negb (bool_decide (head = "")) && negb (all_sep head)
   then rstrip_sep head else head, tail).

Definition dirname (p : string) : string := (split p).1.
Definition basename (p : string) : string := (rpartition p).2.

(** [(p[:i], p[i:])] for [i = p.rfind(".")], when there is a dot. *)
Fixpoint rpartition_dot (p : string) : option (string * string) :=
  match p with
  | "" => None
  | String c s =>
      match rpartition_dot s with
      | Some (h, t) => Some (String c h, t)
      | None => if bool_decide (c = extsep) then Some ("", p) else None
      end
  end.

Fixpoint all_dots (s : string) : bool :=
  match s with
  | "" => true
  | String c s' => bool_decide (c = extsep) && all_dots s'
  end.

(** [os.path.splitext(p)]: the extension starts at the last dot of the last
    component, unless only dots come before it in that component. *)
Definition splitext (p : string) : string * string :=
  let '(head, tail) := rpartition p in
  match rpartition_dot tail with
  | Some (stem, ext) =>
      if all_dots stem then (p, "") else (head +:+ stem, ext)
  | None => (p, "")
  end.

(** [s.lower()], on ASCII letters. *)
Definition lower_ascii (c : ascii) : ascii :=
  let n := nat_of_ascii c in
  if (65 <=? n)%nat && (n <=? 90)%nat then ascii_of_nat (n + 32) else c.

Fixpoint lower (s : string) : string :=
  match s with
  | "" => ""
  | String c s' => String (lower_ascii c) (lower s')
  end.

(** A name as a directory holds it: not empty, no separator, not ".". *)
Definition plain (n : string) : Prop :=
  pieces n = [n] ∧ n ≠ "" ∧ n ≠ ".".

(** The path a string names, as the kernel walks it: the components in
    order, "" and "." dropped; an absolute path starts with the root
    marker "/". A ".." component and symbolic links are not followed: ".."
    counts as a name. *)
Definition keep (c : string) : bool :=
  negb (bool_decide (c = "")) && negb (bool_decide (c = ".")).

Definition resolve (p : string) : list string :=
  (if startswith_sep p then ["/"] else []) ++ filter keep (pieces p).

End Path.

(** ** The file tree and the world *)

Inductive json :=
  | JNull
  | JBool (b : bool)
  | JNum (z : Z)
  | JStr (s : string)
  | JList (l : list json)
  | JDict (items : list (string * json)).

(** What a regular file holds is seen by the program only through
    [json.load] and [json.dump]: [Json v] is a file on which [json.load]
    returns [v], [Bytes s] one on which it raises. *)
Inductive content :=
  | Bytes (s : string)
  | Json (v : json).

Inductive node :=
  | File (c : content)
  | Dir.

Inductive exn :=
  | FileNotFoundError
  | FileExistsError
  | NotADirectoryError
  | IsADirectoryError
  | PermissionError
  | ShutilError
  | JSONDecodeError
  | AttributeError
  | TypeError.

(** [fs]: the tree, by resolved path. [denied]: the entries the process may
    not rename ([shutil.move] raises there). [console]: the lines printed so
    far. [clock]: the number of clock readings taken. *)
Record world := World {
  fs : gmap (list string) node;
  denied : gset (list string);
  console : list string;
  clock : nat
}.

Definition set_fs (F : gmap (list string) node) (w : world) : world :=
  World F (denied w) (console w) (clock w).

Inductive outcome (A : Type) :=
  | Ok (a : A) (w : world)
  | Raise (e : exn) (w : world).
Arguments Ok {A} a w.
Arguments Raise {A} e w.

Definition M (A : Type) : Type := world → outcome A.

Definition ret {A} (a : A) : M A := λ w, Ok a w.
Definition raise {A} (e : exn) : M A := λ w, Raise e w.
Definition bind {A B} (m : M A) (k : A → M B) : M B :=
  λ w, match m w with Ok a w' => k a w' | Raise e w' => Raise e w' end.
(** [try: m except Exception as e: h e] *)
Definition try_except {A} (m : M A) (h : exn → M A) : M A :=
  λ w, match m w with Ok a w' => Ok a w' | Raise e w' => h e w' end.

Declare Scope py_scope.
Delimit Scope py_scope with py.
Notation "'let*' x := m 'in' k" := (bind m (λ x, k))
  (at level 10, x pattern, m at level 100, k at level 200) : py_scope.
Notation "m >> k" := (bind m (λ _, k))
  (at level 100, k at level 200, right associativity) : py_scope.
Open Scope py_scope.

(** ** The [os], [shutil], [json], [datetime] calls *)

Module OS.
Import Path.

(** The working directory [[]] and the root [["/"]] are always there. *)
Definition anchor (k : list string) : bool :=
  bool_decide (k = []) || bool_decide (k = ["/"]).

Definition node_at (F : gmap (list string) node) (k : list string)
  : option node :=
  if anchor k then Some Dir else F !! k.

Definition parent (k : list string) : list string := removelast k.

Definition is_dir (o : option node) : bool :=
  match o with Some Dir => true | _ => false end.
Definition is_file (o : option node) : bool :=
  match o with Some (File _) => true | _ => false end.

(** [os.path.exists], [os.path.isdir]: the empty path names nothing. *)
Definition exists_ (w : world) (p : string) : bool :=
  negb (bool_decide (p = "")) &&
  bool_decide (is_Some (node_at (fs w) (resolve p))).

Definition isdir (w : world) (p : string) : bool :=
  negb (bool_decide (p = "")) &&
  is_dir (node_at (fs w) (resolve p)).

Definition print (line : string) : M unit :=
  λ w, Ok tt (World (fs w) (denied w) (console w ++ [line]) (clock w)).

(** [datetime.now().isoformat()]: the text of a reading is abstracted to
    its number. *)
Definition now_isoformat : M string :=
  λ w, Ok (pretty (clock w))
          (World (fs w) (denied w) (console w) (S (clock w))).

(** [os.makedirs(p, exist_ok=True)] walks the components of [p] from the
    top and creates the missing ones; what it created stays when it
    raises on a regular file in the way. *)
Fixpoint mkdirs (pre rest : list string) (F : gmap (list string) node)
  : (exn + unit) * gmap (list string) node :=
  match rest with
  | [] => (inr tt, F)
  | c :: rest' =>
      let q := pre ++ [c] in
      match node_at F q with
      | Some Dir => mkdirs q rest' F
      | Some (File _) =>
          (inl (match rest' with
                | [] => FileExistsError
                | _ => NotADirectoryError
                end), F)
      | None => mkdirs q rest' (<[q := Dir]> F)
      end
  end.

Definition makedirs (p : string) : M unit := λ w,
  if bool_decide (p = "") then Raise FileNotFoundError w
  else match mkdirs [] (resolve p) (fs w) with
       | (inr _, F) => Ok tt (set_fs F w)
       | (inl e, F) => Raise e (set_fs F w)
       end.

(** [os.listdir(p)]: the order of the names is the system's choice, so
    the list it returns is a parameter, constrained by [is_listing]. *)
Definition is_listing (w : world) (p : string) (names : list string)
  : Prop :=
  NoDup names ∧
  ∀ n, n ∈ names ↔ plain n ∧ is_Some (fs w !! (resolve p ++ [n])).

Definition listdir (listing : list string) (p : string)
  : M (list string) := λ w,
  if isdir w p then Ok listing w
  else if exists_ w p then Raise NotADirectoryError w
  else Raise FileNotFoundError w.

(** The tree with everything at or under [a] moved to [b]. *)
Definition retarget (a b k : list string) : list string :=
  if bool_decide (a `prefix_of` k) then b ++ drop (length a) k else k.

Definition move_tree (a b : list string) (F : gmap (list string) node)
  : gmap (list string) node :=
  list_to_map (prod_map (retarget a b) id <$> map_to_list F).

(** [shutil.move(src, dst)]. A destination that is a directory receives
    the source under its own last name, unless that is taken. Then
    [os.rename]; where it raises, the copy-and-delete fallback raises as
    well, so a failed move changes nothing. A regular file replaces a
    regular file at the destination. *)
Definition move (src dst : string) : M unit := λ w,
  let F := fs w in
  let a := resolve src in
  let into := isdir w dst in
  if into && bool_decide (a = resolve dst) then Ok tt w
  else
    let real_dst := if into then join dst (basename (rstrip_sep src))
                    else dst in
    let b := resolve real_dst in
    if into && exists_ w real_dst then Raise ShutilError w
    else if bool_decide (src = "") || bool_decide (real_dst = "")
    then Raise FileNotFoundError w
    else if anchor a then Raise PermissionError w
    else match F !! a with
    | None => Raise FileNotFoundError w
    | Some n =>
        if bool_decide (a ∈ denied w) || bool_decide (b ∈ denied w)
        then Raise PermissionError w
        else if negb (is_dir (node_at F (parent b)))
        then Raise FileNotFoundError w
        else match n, node_at F b with
        | File c, (None | Some (File _)) =>
            Ok tt (set_fs (<[b := File c]> (delete a F)) w)
        | File _, Some Dir => Raise IsADirectoryError w
        | Dir, None =>
            if bool_decide (a `prefix_of` b) then Raise ShutilError w
            else Ok tt (set_fs (move_tree a b F) w)
        | Dir, Some _ => Raise FileExistsError w
        end
    end.

(** [os.remove(p)] *)
Definition remove (p : string) : M unit := λ w,
  if bool_decide (p = "") then Raise FileNotFoundError w
  else match node_at (fs w) (resolve p) with
       | Some (File _) => Ok tt (set_fs (delete (resolve p) (fs w)) w)
       | Some Dir => Raise IsADirectoryError w
       | None => Raise FileNotFoundError w
       end.

(** [with open(p, "r") as f: json.load(f)] *)
Definition json_load (p : string) : M json := λ w,
  if bool_decide (p = "") then Raise FileNotFoundError w
  else match node_at (fs w) (resolve p) with
       | Some (File (Json v)) => Ok v w
       | Some (File (Bytes _)) => Raise JSONDecodeError w
       | Some Dir => Raise IsADirectoryError w
       | None => Raise FileNotFoundError w
       end.

(** [with open(p, "w") as f: json.dump(v, f)]: the file is created or
    truncated, then holds the text of [v] and nothing else. *)
Definition json_dump (v : json) (p : string) : M unit := λ w,
  if bool_decide (p = "") then Raise FileNotFoundError w
  else match node_at (fs w) (resolve p) with
       | Some Dir => Raise IsADirectoryError w
       | _ =>
           if is_dir (node_at (fs w) (parent (resolve p)))
           then Ok tt (set_fs (<[resolve p := File (Json v)]> (fs w)) w)
           else Raise FileNotFoundError w
       end.

End OS.

(** ** organize.py *)

Import Path.

(** *** Configuration *)

Definition FILE_TYPES : list (string * list string) :=
  [ ("Images", [".jpg"; ".jpeg"; ".png"; ".gif"; ".bmp"; ".webp"]);
    ("Documents", [".pdf"; ".docx"; ".doc"; ".txt"; ".xlsx"; ".csv"; ".pptx"]);
    ("Music", [".mp3"; ".wav"; ".ogg"]);
    ("Videos", [".mp4"; ".mov"; ".avi"; ".mkv"]);
    ("Archives", [".zip"; ".tar"; ".gz"; ".rar"]);
    ("Scripts", [".py"; ".js"; ".sh"]) ].
Definition DEFAULT_OUTPUT : string := "organized_output".
Definition LOG_FILENAME : string := "organize_log.json".

Definition newline : string := String "010"%char "".

(** *** Python values *)

(** [not v] is [negb (truthy v)]. *)
Definition truthy (v : json) : bool :=
  match v with
  | JNull => false
  | JBool b => b
  | JNum z => negb (bool_decide (z = 0%Z))
  | JStr s => negb (bool_decide (s = ""))
  | JList l => match l with [] => false | _ => true end
  | JDict items => match items with [] => false | _ => true end
  end.

(** [entry.get(key)]: [None] for a missing key; only a dict has [get]. *)
Definition dict_get (key : string) (entry : json) : M json :=
  match entry with
  | JDict items =>
      ret (default JNull
             (snd <$> find (λ kv, bool_decide (kv.1 = key)) items))
  | _ => raise AttributeError
  end.

(** [str(e)], abridged to the name of the exception. *)
Definition exn_text (e : exn) : string :=
  match e with
  | FileNotFoundError => "FileNotFoundError"
  | FileExistsError => "FileExistsError"
  | NotADirectoryError => "NotADirectoryError"
  | IsADirectoryError => "IsADirectoryError"
  | PermissionError => "PermissionError"
  | ShutilError => "Error"
  | JSONDecodeError => "JSONDecodeError"
  | AttributeError => "AttributeError"
  | TypeError => "TypeError"
  end.

Definition path_exists (p : string) : M bool := λ w, Ok (OS.exists_ w p) w.
Definition path_isdir (p : string) : M bool := λ w, Ok (OS.isdir w p) w.

(** *** The functions of the source *)

Definition ensure_dir (path : string) : M unit := OS.makedirs path.

Fixpoint category_scan (table : list (string * list string)) (ext : string)
  : option string :=
  match table with
  | [] => None
  | (category, extensions) :: table' =>
      if bool_decide (ext ∈ extensions) then Some category
      else category_scan table' ext
  end.

Definition get_category_for_extension (ext : string) : option string :=
  category_scan FILE_TYPES ext.

(** [f"{base}({counter}){ext}"] *)
Definition numbered (base ext : string) (counter : nat) : string :=
  base +:+ "(" +:+ pretty counter +:+ ")" +:+ ext.

(** The [while] of [unique_dest_path], at most [fuel] tests of its
    condition; the result is [(candidate, counter)] at the exit. *)
Fixpoint unique_loop (fuel : nat) (w : world) (dest_dir base ext : string)
    (candidate : string) (counter : nat) : option (string * nat) :=
  match fuel with
  | 0 => None
  | S fuel' =>
      if OS.exists_ w (join dest_dir candidate)
      then unique_loop fuel' w dest_dir base ext
             (numbered base ext counter) (S counter)
      else Some (candidate, counter)
  end.

Definition unique_dest_path_fuel (fuel : nat) (w : world)
    (dest_dir filename : string) : option string :=
  let '(base, ext) := splitext filename in
  match unique_loop fuel w dest_dir base ext filename 1 with
  | Some (candidate, _) => Some (join dest_dir candidate)
  | None => None
  end.

(** [size (fs w) + 2] tests always suffice ([unique_dest_path_fuel_enough]
    below), so the default is never taken. *)
Definition unique_dest_path (dest_dir filename : string) : M string := λ w,
  Ok (default "" (unique_dest_path_fuel (size (fs w) + 2) w
                    dest_dir filename)) w.

Definition stored_list (v : json) : option (list json) :=
  match v with JList l => Some l | _ => None end.

Definition write_log (output_folder : string) (log_entries : list json)
  : M unit :=
  ensure_dir output_folder >>
  let log_path := join output_folder LOG_FILENAME in
  let* present := path_exists log_path in
  let* log_entries :=
    if present then
      try_except
        (let* existing := OS.json_load log_path in
         match stored_list existing with
         | Some existing => ret (existing ++ log_entries)
         | None => ret log_entries
         end)
        (λ _, ret log_entries)
    else ret log_entries in
  OS.json_dump (JList log_entries) log_path.

Definition load_log (output_folder : string) : M (list json) :=
  let log_path := join output_folder LOG_FILENAME in
  let* present := path_exists log_path in
  if negb present then ret []
  else
    try_except
      (let* data := OS.json_load log_path in
       match stored_list data with
       | Some data => ret data
       | None => ret []
       end)
      (λ _, ret []).

(** One round of the [for entry in reversed(log)] of [undo_moves]. A
    truthy [dest] or [src] that is not a string makes the [os.path] call
    raise; for a number Python would consult the descriptor table instead,
    which is not modelled. *)
Definition undo_entry (entry : json) (failed : list json)
  : M (list json) :=
  let* src := dict_get "src" entry in
  let* dest := dict_get "dest" entry in
  if negb (truthy dest) || negb (truthy src) then ret failed
  else
    match dest with
    | JStr dest_s =>
        let* present := path_exists dest_s in
        if present then
          match src with
          | JStr src_s =>
              let parent := dirname src_s in
              ensure_dir parent >>
              try_except
                (OS.move dest_s src_s >>
                 OS.print ("Restored: " +:+ dest_s +:+ " -> " +:+ src_s) >>
                 ret failed)
                (λ e,
                 OS.print ("Failed to restore " +:+ dest_s +:+ " -> " +:+
                           src_s +:+ ": " +:+ exn_text e) >>
                 ret (failed ++ [entry]))
          | _ => raise TypeError
          end
        else
          OS.print ("Skipped (missing destination): " +:+ dest_s) >>
          ret failed
    | _ => raise TypeError
    end.

Fixpoint undo_entries (entries failed : list json) : M (list json) :=
  match entries with
  | [] => ret failed
  | entry :: entries' =>
      let* failed := undo_entry entry failed in
      undo_entries entries' failed
  end.

Definition undo_moves (output_folder : string) : M unit :=
  let* log := load_log output_folder in
  match log with
  | [] => OS.print "No log entries found to undo."
  | _ =>
      let* failed := undo_entries (reverse log) [] in
      match failed with
      | [] =>
          try_except
            (OS.remove (join output_folder LOG_FILENAME) >>
             OS.print "Undo complete. Log removed.")
            (λ _, OS.print "Undo complete, but failed to remove log file.")
      | _ =>
          write_log output_folder (reverse failed) >>
          OS.print
            "Undo finished with some failures. Remaining failed entries saved to log."
      end
  end.

(** The locals of [organize]. *)
Record scan := Scan {
  moved_entries : list json;
  counts : list (string * nat);
  skipped : nat;
  total : nat
}.

(** [counts[category] = counts.get(category, 0) + 1], keys in insertion
    order. *)
Fixpoint counts_incr (category : string) (counts : list (string * nat))
  : list (string * nat) :=
  match counts with
  | [] => [(category, 1)]
  | (cat, cnt) :: counts' =>
      if bool_decide (cat = category) then (cat, cnt + 1) :: counts'
      else (cat, cnt) :: counts_incr category counts'
  end.

Definition move_record (timestamp file_path dest_path : string) : json :=
  JDict [("timestamp", JStr timestamp); ("src", JStr file_path);
         ("dest", JStr dest_path)].

(** [get_category_for_extension(ext) or "Others"]: every category of the
    table is a non-empty string, so [or] only replaces [None]. *)
Definition category_of (filename : string) : string :=
  let ext := lower (splitext filename).2 in
  default "Others" (get_category_for_extension ext).

(** One round of the [for filename in os.listdir(source_folder)]. *)
Definition organize_file (source_folder output_folder : string)
    (dry_run : bool) (filename : string) (st : scan) : M scan :=
  let file_path := join source_folder filename in
  let* is_d := path_isdir file_path in
  if is_d then ret st
  else
    let st := Scan (moved_entries st) (counts st) (skipped st)
                   (total st + 1) in
    let category := category_of filename in
    let dest_dir := join output_folder category in
    ensure_dir dest_dir >>
    let* dest_path := unique_dest_path dest_dir filename in
    if dry_run then
      OS.print ("[DRY RUN] Would move: " +:+ file_path +:+ " -> " +:+
                dest_path) >>
      ret st
    else
      try_except
        (OS.move file_path dest_path >>
         OS.print ("Moved: " +:+ filename +:+ " -> " +:+ category +:+ "/") >>
         let* timestamp := OS.now_isoformat in
         ret (Scan (moved_entries st ++
                      [move_record timestamp file_path dest_path])
                   (counts_incr category (counts st))
                   (skipped st) (total st)))
        (λ e,
         OS.print ("Failed to move " +:+ filename +:+ ": " +:+ exn_text e) >>
         ret (Scan (moved_entries st) (counts st) (skipped st + 1)
                   (total st))).

Fixpoint organize_files (source_folder output_folder : string)
    (dry_run : bool) (names : list string) (st : scan) : M scan :=
  match names with
  | [] => ret st
  | filename :: names' =>
      let* st := organize_file source_folder output_folder dry_run
                   filename st in
      organize_files source_folder output_folder dry_run names' st
  end.

Fixpoint print_counts (counts : list (string * nat)) : M unit :=
  match counts with
  | [] => ret tt
  | (cat, cnt) :: counts' =>
      OS.print (cat +:+ ": " +:+ pretty cnt) >> print_counts counts'
  end.

(** [listing] is what [os.listdir(source_folder)] returns at line 137. *)
Definition organize (listing : list string)
    (source_folder output_folder : string) (dry_run : bool)
  : M (list json) :=
  let* present := path_exists source_folder in
  if negb present then
    OS.print ("Source folder does not exist: " +:+ source_folder) >>
    ret []
  else
    ensure_dir output_folder >>
    let* names := OS.listdir listing source_folder in
    let* st := organize_files source_folder output_folder dry_run names
                 (Scan [] [] 0 0) in
    OS.print (newline +:+ "--- summary ---") >>
    print_counts (counts st) >>
    OS.print ("Total files scanned: " +:+ pretty (total st)) >>
    OS.print ("Skipped (failed or directories): " +:+ pretty (skipped st)) >>
    (match moved_entries st with
     | [] =>
         OS.print (newline +:+
                   "No files were moved (dry run or nothing to move).")
     | _ =>
         write_log output_folder (moved_entries st) >>
         OS.print (newline +:+ "Log saved to: " +:+
                   join output_folder LOG_FILENAME) >>
         OS.print "You can undo this run with: python organize.py --undo"
     end) >>
    ret (moved_entries st).

(** ** Vocabulary of the statements, and the worlds of the worked runs *)

Fixpoint no_sep (s : string) : bool :=
  match s with "" => true | String c s' => negb (is_sep c) && no_sep s' end.

Definition log_key (output_folder : string) : list string :=
  resolve output_folder ++ [LOG_FILENAME].

(** The list a log file stands for: its content when that is a JSON
    list, nothing otherwise. *)
Definition log_content (o : option node) : list json :=
  match o with
  | Some (File (Json (JList data))) => data
  | _ => []
  end.

Definition w_alloc : world :=
  World (list_to_map [ (["d"], Dir);
                       (["d"; "a.txt"], File (Bytes "one"));
                       (["d"; "a(1).txt"], File (Bytes "two")) ])
        ∅ [] 0.

(** [G] is [F] with some directories added, and nothing else changed. *)
Definition dirs_added (F G : gmap (list string) node) : Prop :=
  ∀ k, G !! k = F !! k ∨ (F !! k = None ∧ G !! k = Some Dir).

Definition w_inbox : world :=
  World (list_to_map [ (["inbox"], Dir);
                       (["inbox"; "a.txt"], File (Bytes "A"));
                       (["inbox"; "data.xyz"], File (Bytes "X")) ])
        ∅ [] 0.

Definition e_a : json :=
  move_record "t0" "inbox/a.txt" "out/Documents/a.txt".
Definition e_b : json :=
  move_record "t1" "inbox/b.txt" "out/Documents/b.txt".
(** A record without ["src"]. *)
Definition e_nosrc : json :=
  JDict [("timestamp", JStr "t0"); ("dest", JStr "out/Documents/a.txt")].

(** After a run that moved [a.txt] and [b.txt], a directory [inbox/b.txt]
    holding a [b.txt] has appeared, so that [b.txt] cannot be restored. *)
Definition w_blocked (log : list json) : world :=
  World (list_to_map [ (["inbox"], Dir);
                       (["inbox"; "b.txt"], Dir);
                       (["inbox"; "b.txt"; "b.txt"], File (Bytes "other"));
                       (["out"], Dir);
                       (["out"; "Documents"], Dir);
                       (["out"; "Documents"; "a.txt"], File (Bytes "A"));
                       (["out"; "Documents"; "b.txt"], File (Bytes "B"));
                       (["out"; "organize_log.json"], File (Json (JList log))) ])
        ∅ [] 0.

(** Every entry of the tree lies in a directory. *)
Definition wf_tree (F : gmap (list string) node) : Prop :=
  ∀ k n, is_Some (F !! (k ++ [n])) → OS.node_at F k = Some Dir.

(** The path [k] and everything above it are directories. *)
Definition prefixes_dir (F : gmap (list string) node) (k : list string)
  : Prop :=
  ∀ m, OS.node_at F (take m k) = Some Dir.

(** [G] is [F] with new directories at paths in [C] and possibly a new
    entry at [L]. *)
Definition extends (C : list string → Prop) (L : list string)
    (F G : gmap (list string) node) : Prop :=
  ∀ k, G !! k = F !! k ∨
       (F !! k = None ∧ ((G !! k = Some Dir ∧ C k) ∨ k = L)).

(** [moves source out C den F entries F']: from the tree [F], the moves
    that [entries] record lead to [F']; each takes a regular file of
    [source] to a free path two steps below [out], neither of them in
    [den], and between them only directories in [C] appear. *)
Inductive moves (source out : string) (C : list string → Prop)
    (den : gset (list string))
  : gmap (list string) node → list json → gmap (list string) node → Prop :=
  | moves_nil F F' :
      extends C (resolve out ++ [LOG_FILENAME]) F F' →
      moves source out C den F [] F'
  | moves_cons F F1 F' n cand c ts entries :
      extends C (resolve out ++ [LOG_FILENAME]) F F1 →
      prefixes_dir F1 (resolve source) →
      plain n → plain cand →
      F1 !! (resolve source ++ [n]) = Some (File c) →
      F1 !! (resolve out ++ [category_of n; cand]) = None →
      resolve source ++ [n] ∉ den →
      resolve out ++ [category_of n; cand] ∉ den →
      ¬ C (resolve source ++ [n]) →
      resolve source ++ [n] ≠ resolve out ++ [LOG_FILENAME] →
      moves source out C den
        (<[resolve out ++ [category_of n; cand] := File c]>
           (delete (resolve source ++ [n]) F1))
        entries F' →
      moves source out C den F
        (move_record ts (join source n)
           (join (join out (category_of n)) cand) :: entries) F'.

(** A name of the listing that is not a directory when [organize] looks. *)
Definition regular (w : world) (source name : string) : bool :=
  negb (OS.isdir w (join source name)).

(** The world and the value of an outcome. *)
Definition world_of {A} (o : outcome A) : world :=
  match o with Ok _ w | Raise _ w => w end.
Definition value_of {A} (o : outcome A) (d : A) : A :=
  match o with Ok a _ => a | Raise _ _ => d end.

(** A folder organized in place: source and output are the same folder,
    and one file has the name of a category. *)
Definition w_same : world :=
  World (list_to_map [ (["s"], Dir);
                       (["s"; "Images"], File (Bytes "x"));
                       (["s"; "a.jpg"], File (Bytes "y")) ])
        ∅ [] 0.

Ltac in_tree H :=
  apply elem_of_list_to_map_2 in H;
  repeat (apply elem_of_cons in H as [H|H]; [injection H as ? ?|]);
  [..|by apply elem_of_nil in H].

(** What the regular files of a tree hold, in some order. *)
Definition contents (F : gmap (list string) node) : list content :=
  omap (λ kn, match kn.2 with File c => Some c | Dir => None end)
       (map_to_list F).

(** The lookup in the words of the specification: an extension is
    normalized by writing each capital letter as its small letter, and its
    category is the one under which [FILE_TYPES] lists the normalized
    extension, or ["Others"] when no category lists it. *)
Fixpoint spec_small_of (capitals smalls : string) (c : ascii) : ascii :=
  match capitals, smalls with
  | String C capitals', String s smalls' =>
      if bool_decide (C = c) then s else spec_small_of capitals' smalls' c
  | _, _ => c
  end.

Definition spec_normalize_char (c : ascii) : ascii :=
  spec_small_of "ABCDEFGHIJKLMNOPQRSTUVWXYZ" "abcdefghijklmnopqrstuvwxyz" c.

Fixpoint spec_normalize (s : string) : string :=
  match s with
  | "" => ""
  | String c s' => String (spec_normalize_char c) (spec_normalize s')
  end.

Definition spec_category (ext category : string) : Prop :=
  (∃ exts, (category, exts) ∈ FILE_TYPES ∧ spec_normalize ext ∈ exts) ∨
  (category = "Others" ∧
   ∀ cat exts, (cat, exts) ∈ FILE_TYPES → spec_normalize ext ∉ exts).

Definition w_photo : world :=
  World (list_to_map [ (["inbox"], Dir);
                       (["inbox"; "PHOTO.JPG"], File (Bytes "P")) ])
        ∅ [] 0.


(** * Lemmas *)

(** ** Checks of the path functions *)

Example join_ex : Path.join "out" "Images" = "out/Images" ∧
  Path.join "out/" "a.txt" = "out/a.txt" ∧ Path.join "x" "/y" = "/y" ∧
  Path.join "" "y" = "y".
Proof. repeat split. Qed.

Example splitext_ex :
  Path.splitext "a.tar.gz" = ("a.tar", ".gz") ∧
  Path.splitext ".bashrc" = (".bashrc", "") ∧
  Path.splitext "d.x/name" = ("d.x/name", "") ∧
  Path.splitext "..jpg" = ("..jpg", "") ∧
  Path.splitext "d/...a.b" = ("d/...a", ".b") ∧
  Path.splitext "README" = ("README", "").
Proof. repeat split. Qed.

Example split_ex :
  Path.split "s/a.txt" = ("s", "a.txt") ∧ Path.split "/a" = ("/", "a") ∧
  Path.split "a" = ("", "a") ∧ Path.split "a//b/" = ("a//b", "") ∧
  Path.split "//a" = ("//", "a").
Proof. repeat split. Qed.

Example resolve_ex :
  Path.resolve "/a//b/./c/" = ["/"; "a"; "b"; "c"] ∧
  Path.resolve "./s/a.txt" = ["s"; "a.txt"] ∧ Path.resolve "." = [] ∧
  Path.resolve "/" = ["/"].
Proof. repeat split. Qed.

Example lower_ex : Path.lower ".JPG" = ".jpg" ∧ Path.lower ".Tar9" = ".tar9".
Proof. repeat split. Qed.

(** ** Strings and paths *)

Section path_facts.

Lemma str_app_cons (c : ascii) (s t : string) :
  String c s +:+ t = String c (s +:+ t).
Proof. reflexivity. Qed.

Lemma str_app_empty_l (t : string) : "" +:+ t = t.
Proof. reflexivity. Qed.

Lemma str_app_empty_r (s : string) : s +:+ "" = s.
Proof.
  induction s as [|c s IH]; [done | by rewrite str_app_cons, IH].
Qed.

Lemma str_app_assoc (s t u : string) : (s +:+ t) +:+ u = s +:+ t +:+ u.
Proof.
  induction s as [|c s IH]; [done | by rewrite !str_app_cons, IH].
Qed.

Lemma str_length_app (s t : string) :
  String.length (s +:+ t) = String.length s + String.length t.
Proof.
  induction s as [|c s IH]; [done | by rewrite str_app_cons; simpl; rewrite IH].
Qed.

Lemma str_app_inv_tail (s1 s2 t : string) : s1 +:+ t = s2 +:+ t → s1 = s2.
Proof.
  revert s2. induction s1 as [|c s1 IH]; intros [|c2 s2] H.
  - done.
  - apply (f_equal String.length) in H.
    rewrite !str_length_app in H. simpl in H. lia.
  - apply (f_equal String.length) in H.
    rewrite !str_length_app in H. simpl in H. lia.
  - rewrite !str_app_cons in H. injection H as -> H. f_equal. by apply IH.
Qed.

Lemma pieces_nonempty (s : string) : pieces s ≠ [].
Proof.
  destruct s as [|c s]; simpl; [done|].
  destruct (is_sep c); [done|]. by destruct (pieces s).
Qed.

(** The pieces of a concatenation: the last piece of the left part and
    the first piece of the right part merge. *)
Lemma pieces_app (s t : string) :
  ∃ l x y r, pieces s = l ++ [x] ∧ pieces t = y :: r ∧
             pieces (s +:+ t) = l ++ (x +:+ y) :: r.
Proof.
  induction s as [|c s (l & x & y & r & Hs & Ht & Hst)].
  - destruct (pieces t) as [|y r] eqn:Ht; [by apply pieces_nonempty in Ht|].
    exists [], "", y, r. by rewrite !str_app_empty_l, Ht.
  - rewrite str_app_cons. simpl. destruct (is_sep c).
    + exists ("" :: l), x, y, r. by rewrite Hs, Hst.
    + rewrite Hs, Hst. destruct l as [|h l]; simpl.
      * by exists [], (String c x), y, r.
      * by exists (String c h :: l), x, y, r.
Qed.

Lemma no_sep_pieces (s : string) : no_sep s = true → pieces s = [s].
Proof.
  induction s as [|c s IH]; simpl; [done|].
  intros [Hc Hs]%andb_true_iff. apply negb_true_iff in Hc.
  by rewrite Hc, (IH Hs).
Qed.

Lemma pieces_no_sep (s : string) : pieces s = [s] → no_sep s = true.
Proof.
  induction s as [|c s IH]; simpl; [done|].
  destruct (is_sep c); [done|]. simpl.
  destruct (pieces s) as [|h [|h' t]] eqn:Hp; try done.
  - by apply pieces_nonempty in Hp.
  - intros [= ?]; subst. by apply IH.
Qed.

Lemma no_sep_app (s t : string) :
  no_sep (s +:+ t) = no_sep s && no_sep t.
Proof.
  induction s as [|c s IH]; [done|]. rewrite str_app_cons. simpl.
  by rewrite IH, andb_assoc.
Qed.

Lemma pieces_last_endswith_sep (a : string) :
  endswith_sep a = true → ∃ l, pieces a = l ++ [""].
Proof.
  induction a as [|c a IH]; simpl; [done|].
  destruct a as [|c' a'].
  - intros ->. by exists [""].
  - intros H. destruct (IH H) as [l Hl]. rewrite Hl.
    destruct (is_sep c).
    + by exists ("" :: l).
    + destruct l as [|h l]; simpl.
      * exfalso. simpl in Hl. destruct (is_sep c').
        { injection Hl as Hl. by apply pieces_nonempty in Hl. }
        by destruct (pieces a').
      * by exists (String c h :: l).
Qed.

Lemma plain_no_sep (n : string) : plain n → no_sep n = true.
Proof. intros (Hp & _). by apply pieces_no_sep. Qed.

Lemma no_sep_startswith (n : string) :
  no_sep n = true → startswith_sep n = false.
Proof.
  destruct n as [|c n]; simpl; [done|].
  intros [Hc _]%andb_true_iff. by apply negb_true_iff in Hc.
Qed.

Lemma plain_keep (n : string) : plain n → keep n = true.
Proof.
  intros (_ & H1 & H2). unfold keep.
  by rewrite !bool_decide_eq_false_2.
Qed.

Lemma startswith_sep_app (a b : string) :
  a ≠ "" → startswith_sep (a +:+ b) = startswith_sep a.
Proof. by destruct a. Qed.

Lemma str_app_nonempty_r (a b : string) : b ≠ "" → a +:+ b ≠ "".
Proof. by destruct a. Qed.

Lemma join_nonempty (a b : string) : b ≠ "" → join a b ≠ "".
Proof.
  intros Hb. unfold join. destruct (startswith_sep b); [done|].
  by destruct (bool_decide (a = "") || endswith_sep a);
    apply str_app_nonempty_r.
Qed.

Lemma filter_keep_cons (x : string) (l : list string) :
  filter (λ c, keep c) (x :: l) =
  if keep x then x :: filter (λ c, keep c) l else filter (λ c, keep c) l.
Proof.
  rewrite filter_cons. by destruct (keep x).
Qed.

(** The path of a plain name joined to a directory is one step below the
    directory. *)
Lemma resolve_join (a n : string) :
  plain n → resolve (join a n) = resolve a ++ [n].
Proof.
  intros Hn. pose proof (plain_no_sep _ Hn) as Hns.
  pose proof (plain_keep _ Hn) as Hk.
  pose proof (no_sep_pieces _ Hns) as Hp.
  unfold join. rewrite (no_sep_startswith _ Hns).
  destruct (decide (a = "")) as [->|Ha].
  { simpl. rewrite str_app_empty_l. unfold resolve.
    rewrite (no_sep_startswith _ Hns), Hp. simpl.
    by rewrite filter_keep_cons, Hk. }
  rewrite bool_decide_eq_false_2 by done. simpl.
  destruct (endswith_sep a) eqn:He.
  - destruct (pieces_last_endswith_sep _ He) as [l Hl].
    destruct (pieces_app a n) as (l' & x & y & r & H1 & H2 & H3).
    rewrite Hl in H1. apply app_inj_tail in H1 as [<- <-].
    rewrite Hp in H2. injection H2 as <- <-.
    unfold resolve. rewrite startswith_sep_app by done.
    rewrite H3, Hl, str_app_empty_l, !filter_app, !filter_keep_cons, Hk.
    simpl. by rewrite app_nil_r, (assoc_L (++)).
  - destruct (pieces_app a (String sep n)) as (l' & x & y & r & H1 & H2 & H3).
    simpl in H2. rewrite Hp in H2. injection H2 as <- <-.
    unfold resolve. rewrite startswith_sep_app by done.
    rewrite H3, H1, str_app_empty_r, !filter_app, !filter_keep_cons, Hk.
    destruct (keep x); simpl; by rewrite <-!(assoc_L (++)).
Qed.

End path_facts.

(** ** The file tree *)

Section tree_facts.
Implicit Types (F : gmap (list string) node) (k pre rest : list string).

Lemma node_at_lookup F k :
  k ≠ [] → k ≠ ["/"] → OS.node_at F k = F !! k.
Proof.
  intros H1 H2. unfold OS.node_at, OS.anchor.
  by rewrite !bool_decide_eq_false_2.
Qed.

Lemma node_at_snoc F k (n : string) :
  plain n → OS.node_at F (k ++ [n]) = F !! (k ++ [n]).
Proof.
  intros (Hp & _ & _). apply node_at_lookup.
  - by destruct k.
  - destruct k as [|c [|c' k]]; simpl; try done. by intros [= ->].
Qed.

Lemma node_at_cases F k :
  OS.node_at F k = Some Dir ∨ OS.node_at F k = F !! k.
Proof. unfold OS.node_at. destruct (OS.anchor k); auto. Qed.

Lemma node_at_None F k : OS.node_at F k = None → F !! k = None.
Proof. by destruct (node_at_cases F k) as [-> | ->]. Qed.

Lemma node_at_file F k c :
  OS.node_at F k = Some (File c) → F !! k = Some (File c).
Proof. by destruct (node_at_cases F k) as [-> | ->]. Qed.

(** [os.makedirs] only adds directories, at prefixes of its path. *)
Lemma mkdirs_lookup pre rest F r F' k :
  OS.mkdirs pre rest F = (r, F') →
  F' !! k = F !! k ∨
  (F !! k = None ∧ F' !! k = Some Dir ∧
   ∃ m, 0 < m ≤ length rest ∧ k = pre ++ take m rest).
Proof.
  revert pre F. induction rest as [|c rest IH]; intros pre F; simpl.
  { intros [= _ <-]. by left. }
  destruct (OS.node_at F (pre ++ [c])) as [[?|]|] eqn:Hq.
  - intros [= _ <-]. by left.
  - intros [H|(H1 & H2 & m & Hm & ->)]%IH; [by left|right].
    split_and!; [done..|]. exists (S m). split; [lia|].
    by rewrite <-(assoc_L (++)).
  - apply node_at_None in Hq.
    intros [H|(H1 & H2 & m & Hm & ->)]%IH.
    + destruct (decide (k = pre ++ [c])) as [->|Hk].
      * right. rewrite H, lookup_insert_eq. split_and!; [done..|].
        exists 1. split; [lia|]. simpl. by rewrite take_0.
      * left. by rewrite H, lookup_insert_ne.
    + right. apply lookup_insert_None in H1 as [H1 _].
      split_and!; [done..|]. exists (S m). split; [lia|].
      by rewrite <-(assoc_L (++)).
Qed.

Lemma node_at_insert_ne F k k' (n : node) :
  k ≠ k' → OS.node_at (<[k := n]> F) k' = OS.node_at F k'.
Proof.
  intros Hk. unfold OS.node_at. by rewrite lookup_insert_ne.
Qed.

(** When it returns, the directory is there. *)
Lemma mkdirs_isdir pre rest F F' :
  OS.mkdirs pre rest F = (inr tt, F') →
  OS.node_at F pre = Some Dir ∨ rest ≠ [] →
  OS.node_at F' (pre ++ rest) = Some Dir.
Proof.
  revert pre F. induction rest as [|c rest IH]; intros pre F; simpl.
  { intros [= <-] [H|H]; [|done]. by rewrite app_nil_r. }
  intros Hm _. rewrite (assoc_L (++) pre [c] rest : pre ++ c :: rest = _).
  destruct (OS.node_at F (pre ++ [c])) as [[?|]|] eqn:Hq; [done|..].
  - apply (IH _ _ Hm). by left.
  - apply (IH _ _ Hm). left.
    unfold OS.node_at. rewrite lookup_insert_eq. by case_match.
Qed.

End tree_facts.

(** ** The move log store *)

Section log_store.
Implicit Types (w : world) (output_folder : string).

Lemma plain_LOG_FILENAME : plain LOG_FILENAME.
Proof. by split_and!. Qed.

Lemma log_path_nonempty output_folder :
  bool_decide (join output_folder LOG_FILENAME = "") = false.
Proof. apply bool_decide_eq_false_2. by apply join_nonempty. Qed.

Lemma log_path_node w output_folder :
  OS.node_at (fs w) (resolve (join output_folder LOG_FILENAME)) =
  fs w !! log_key output_folder.
Proof.
  rewrite (resolve_join _ _ plain_LOG_FILENAME).
  apply node_at_snoc, plain_LOG_FILENAME.
Qed.

Lemma load_log_eq output_folder w :
  load_log output_folder w =
  Ok (log_content (fs w !! log_key output_folder)) w.
Proof.
  unfold load_log, bind, path_exists, OS.exists_, try_except, OS.json_load.
  rewrite log_path_nonempty, log_path_node. simpl.
  destruct (fs w !! log_key output_folder) as [[[s|[]]|]|] eqn:E;
    simpl; rewrite ?log_path_nonempty, ?log_path_node, ?E; done.
Qed.

End log_store.

(** C7: loading the log never raises and changes nothing; it returns the
    stored list when the log file holds a JSON list, and the empty list when
    the file is absent, is not a regular file, does not parse, or parses to
    something that is not a list. *)
Theorem load_log_total (output_folder : string) (w : world) :
  load_log output_folder w =
  Ok (match fs w !! (resolve output_folder ++ [LOG_FILENAME]) with
      | Some (File (Json (JList data))) => data
      | Some (File (Json _)) | Some (File (Bytes _)) | Some Dir | None => []
      end) w.
Proof.
  rewrite load_log_eq. unfold log_content, log_key.
  by repeat case_match.
Qed.

Section makedirs_facts.
Implicit Types (w : world) (p : string) (k : list string).

Lemma makedirs_inv p w r w1 :
  OS.makedirs p w = r →
  (r = Ok tt w1 ∨ ∃ e, r = Raise e w1) →
  denied w1 = denied w ∧ console w1 = console w ∧ clock w1 = clock w ∧
  ∀ k, fs w1 !! k = fs w !! k ∨
       (fs w !! k = None ∧ fs w1 !! k = Some Dir ∧
        ∃ m, 0 < m ≤ length (resolve p) ∧ k = take m (resolve p)).
Proof.
  unfold OS.makedirs. intros <- Hr.
  destruct (bool_decide (p = "")).
  { assert (w1 = w) as -> by (destruct Hr as [|[]]; congruence).
    split_and!; try done. by left. }
  destruct (OS.mkdirs [] (resolve p) (fs w)) as [[e|[]] F'] eqn:Hm.
  all: assert (w1 = set_fs F' w) as ->
    by (destruct Hr as [|[]]; congruence).
  all: split_and!; try done; intros k.
  all: by apply (mkdirs_lookup _ _ _ _ _ k) in Hm.
Qed.

Lemma makedirs_isdir p w w1 :
  OS.makedirs p w = Ok tt w1 → OS.isdir w1 p = true.
Proof.
  unfold OS.makedirs, OS.isdir.
  destruct (bool_decide (p = "")); [done|].
  destruct (OS.mkdirs [] (resolve p) (fs w)) as [[e|[]] F'] eqn:Hm; [done|].
  intros [= <-]. simpl. apply mkdirs_isdir in Hm; [|by left].
  simpl in Hm. by rewrite Hm.
Qed.

(** What lies one step below the directory is not touched. *)
Lemma makedirs_below p w r w1 (n : string) :
  OS.makedirs p w = r →
  (r = Ok tt w1 ∨ ∃ e, r = Raise e w1) →
  fs w1 !! (resolve p ++ [n]) = fs w !! (resolve p ++ [n]).
Proof.
  intros H Hr. destruct (makedirs_inv _ _ _ _ H Hr) as (_ & _ & _ & Hk).
  destruct (Hk (resolve p ++ [n])) as [|(_ & _ & m & Hm & E)]; [done|].
  apply (f_equal length) in E.
  rewrite length_app, length_take in E. simpl in E. lia.
Qed.

End makedirs_facts.

Section write_log_facts.
Implicit Types (w : world) (output_folder : string).

Lemma parent_snoc (k : list string) (n : string) : OS.parent (k ++ [n]) = k.
Proof. apply removelast_last. Qed.

Lemma write_log_eq output_folder (log_entries : list json) w :
  write_log output_folder log_entries w =
  match ensure_dir output_folder w with
  | Raise e w1 => Raise e w1
  | Ok _ w1 =>
      match fs w !! log_key output_folder with
      | Some Dir => Raise IsADirectoryError w1
      | o =>
          Ok tt (set_fs (<[log_key output_folder :=
                   File (Json (JList (log_content o ++ log_entries)))]>
                   (fs w1)) w1)
      end
  end.
Proof.
  unfold write_log, ensure_dir, bind at 1.
  destruct (OS.makedirs output_folder w) as [[] w1|e w1] eqn:Hm; [|done].
  pose proof (makedirs_isdir _ _ _ Hm) as Hd.
  pose proof (makedirs_below _ _ _ w1 LOG_FILENAME Hm (or_introl eq_refl))
    as Hl.
  fold (log_key output_folder) in Hl. rewrite <-Hl.
  unfold OS.isdir in Hd. apply andb_true_iff in Hd as [_ Hd].
  unfold bind, path_exists, OS.exists_, try_except, OS.json_load,
    OS.json_dump.
  rewrite log_path_nonempty, log_path_node. simpl.
  destruct (fs w1 !! log_key output_folder) as [[[s|v]|]|] eqn:E; simpl;
    rewrite ?log_path_nonempty, ?log_path_node, ?E; simpl.
  2: destruct v; simpl.
  all: rewrite ?log_path_nonempty, ?log_path_node, ?E; simpl; try done.
  all: rewrite (resolve_join _ _ plain_LOG_FILENAME), parent_snoc, Hd.
  all: done.
Qed.

End write_log_facts.


(** ** The path allocator *)

Section numbered_paths.

Lemma no_sep_pretty_N_go (x : N) (s : string) :
  no_sep s = true → no_sep (pretty_N_go x s) = true.
Proof.
  revert s. induction (N.lt_wf_0 x) as [x _ IH]; intros s Hs.
  destruct (decide (x = 0)%N) as [->|Hx]; [by rewrite pretty_N_go_0|].
  rewrite pretty_N_go_step by lia. apply IH.
  - apply N.div_lt; lia.
  - simpl. rewrite Hs. unfold pretty_N_char. by repeat case_match.
Qed.

Lemma no_sep_pretty (n : nat) : no_sep (pretty n) = true.
Proof.
  unfold pretty, pretty_nat, pretty, pretty_N.
  case_decide; [done|]. by apply no_sep_pretty_N_go.
Qed.

Lemma paren_app (s : string) : "(" +:+ s = String "("%char s.
Proof. reflexivity. Qed.

Lemma numbered_eq (base ext : string) (k : nat) :
  numbered base ext k =
  base +:+ String "("%char (pretty k +:+ ")") +:+ ext.
Proof.
  unfold numbered. f_equal.
  by rewrite paren_app, (str_app_cons _ (pretty k +:+ ")") ext),
    str_app_assoc.
Qed.

Lemma startswith_sep_paren (base z : string) :
  startswith_sep (base +:+ String "("%char z) = startswith_sep base.
Proof. by destruct base. Qed.

(** The numbered candidates joined to a directory differ from one another
    only in the number. *)
Lemma join_numbered (d base ext : string) :
  ∃ P, ∀ k, join d (numbered base ext k) =
            P +:+ String "("%char (pretty k +:+ ")") +:+ ext.
Proof.
  exists (if startswith_sep base then base
          else if bool_decide (d = "") || endswith_sep d then d +:+ base
          else d +:+ String sep base).
  intros k. rewrite numbered_eq. unfold join.
  rewrite (str_app_cons _ (pretty k +:+ ")") ext), startswith_sep_paren.
  destruct (startswith_sep base); [done|].
  destruct (bool_decide (d = "") || endswith_sep d).
  - by rewrite (str_app_assoc d base).
  - by rewrite (str_app_assoc d (String sep base)).
Qed.

Lemma keep_paren (x z : string) : keep (x +:+ String "("%char z) = true.
Proof.
  unfold keep. destruct x as [|c x]; [done|].
  rewrite str_app_cons, !bool_decide_eq_false_2; [done| |done].
  intros [= _ H]. by destruct x.
Qed.

Lemma resolve_mid (P E : string) :
  ∃ A x y B, ∀ M, no_sep M = true →
    resolve (P +:+ String "("%char M +:+ E) =
    A ++ (x +:+ String "("%char (M +:+ y)) :: B.
Proof.
  destruct (pieces P) as [|x l _] eqn:HP using rev_ind;
    [by apply pieces_nonempty in HP|].
  destruct (pieces E) as [|y r] eqn:HE; [by apply pieces_nonempty in HE|].
  exists ((if startswith_sep P then ["/"] else []) ++
          filter (λ c, keep c) l), x, y, (filter (λ c, keep c) r).
  intros M HM.
  assert (pieces (String "("%char M +:+ E) = String "("%char (M +:+ y) :: r)
    as HME.
  { destruct (pieces_app (String "("%char M) E) as (l1&x1&y1&r1&H1&H2&H3).
    rewrite no_sep_pieces in H1 by done.
    apply (app_inj_tail [] l1 _ x1) in H1 as [<- <-].
    rewrite HE in H2. injection H2 as <- <-. by rewrite H3. }
  destruct (pieces_app P (String "("%char M +:+ E)) as (l1&x1&y1&r1&H1&H2&H3).
  rewrite HP in H1. apply app_inj_tail in H1 as [<- <-].
  rewrite HME in H2. injection H2 as <- <-.
  unfold resolve. rewrite H3, filter_app, filter_keep_cons, keep_paren.
  rewrite <-(assoc_L (++)). f_equal.
  destruct P as [|c P]; [|done]. by rewrite str_app_empty_l.
Qed.

Lemma numbered_path_shape (d base ext : string) :
  ∃ A x y B, ∀ k,
    resolve (join d (numbered base ext k)) =
    A ++ (x +:+ String "("%char ((pretty k +:+ ")") +:+ y)) :: B.
Proof.
  destruct (join_numbered d base ext) as [P HP].
  destruct (resolve_mid P ext) as (A & x & y & B & H).
  exists A, x, y, B. intros k. rewrite HP. apply H.
  by rewrite no_sep_app, no_sep_pretty.
Qed.

Lemma numbered_path_inj (d base ext : string) (k k' : nat) :
  resolve (join d (numbered base ext k)) =
  resolve (join d (numbered base ext k')) → k = k'.
Proof.
  destruct (numbered_path_shape d base ext) as (A & x & y & B & H).
  rewrite !H. intros E%app_inv_head. injection E as E.
  apply String.app_inj in E. injection E as E.
  by apply str_app_inv_tail, str_app_inv_tail, pretty_nat_inj in E.
Qed.

Lemma numbered_path_not_anchor (d base ext : string) (k : nat) :
  OS.anchor (resolve (join d (numbered base ext k))) = false.
Proof.
  destruct (numbered_path_shape d base ext) as (A & x & y & B & H).
  rewrite H. unfold OS.anchor.
  rewrite bool_decide_eq_false_2 by (by destruct A).
  rewrite bool_decide_eq_false_2; [done|].
  destruct A as [|? [|]]; try done. simpl.
  destruct x as [|c [|c' x]]; try done.
Qed.

Lemma numbered_exists_dom (w : world) (d base ext : string) (k : nat) :
  OS.exists_ w (join d (numbered base ext k)) = true →
  resolve (join d (numbered base ext k)) ∈ dom (fs w).
Proof.
  unfold OS.exists_, OS.node_at. rewrite numbered_path_not_anchor.
  intros [_ H%bool_decide_eq_true]%andb_true_iff.
  by apply elem_of_dom.
Qed.

End numbered_paths.

Section unique_dest_path_facts.
Context (w : world) (dest_dir base ext : string).

Local Abbreviation taken j :=
  (OS.exists_ w (join dest_dir (numbered base ext j))).
Local Abbreviation key j := (resolve (join dest_dir (numbered base ext j))).

(** Once the loop is at a numbered candidate: with more tests allowed
    than there are candidates in the way, it stops at the first free
    number. *)
Lemma unique_loop_numbered (fuel : nat) (X : gset (list string)) (c : nat) :
  (∀ j, c ≤ j → taken j = true → key j ∈ X) →
  size X < fuel →
  ∃ m, c ≤ m ≤ c + size X ∧
    unique_loop fuel w dest_dir base ext (numbered base ext c) (S c) =
      Some (numbered base ext m, S m) ∧
    taken m = false ∧
    forallb (λ j, taken j) (seq c (m - c)) = true.
Proof.
  revert X c. induction fuel as [|fuel IH]; intros X c HX Hf; [lia|].
  simpl. destruct (taken c) eqn:Hc.
  - assert (key c ∈ X) as Hin by (by apply HX).
    assert (size (X ∖ {[key c]}) = size X - 1) as Hsz.
    { by rewrite size_difference, size_singleton by set_solver. }
    assert (0 < size X) as Hpos.
    { assert ({[key c]} ⊆ X) as Hin'%subseteq_size by set_solver.
      by rewrite size_singleton in Hin'. }
    destruct (IH (X ∖ {[key c]}) (S c)) as (m & Hm & Hl & Hfree & Hall).
    { intros j Hj Hj'. apply elem_of_difference.
      split; [apply HX; [lia|done]|].
      intros E%elem_of_singleton%numbered_path_inj. lia. }
    { lia. }
    exists m. split; [lia|]. split; [done|]. split; [done|].
    replace (m - c) with (S (m - S c)) by lia. simpl. by rewrite Hc.
  - exists c. split; [lia|]. by rewrite Nat.sub_diag.
Qed.

(** The whole loop, from the unnumbered name. *)
Lemma unique_loop_result (filename : string) (fuel : nat)
    (X : gset (list string)) :
  (∀ j, 1 ≤ j → taken j = true → key j ∈ X) →
  size X + 2 ≤ fuel →
  if OS.exists_ w (join dest_dir filename) then
    ∃ m, 1 ≤ m ≤ size X + 1 ∧
      unique_loop fuel w dest_dir base ext filename 1 =
        Some (numbered base ext m, S m) ∧
      taken m = false ∧
      forallb (λ j, taken j) (seq 1 (m - 1)) = true
  else unique_loop fuel w dest_dir base ext filename 1 = Some (filename, 1).
Proof.
  intros HX Hf. destruct fuel as [|fuel]; [lia|]. simpl.
  destruct (OS.exists_ w (join dest_dir filename)); [|done].
  destruct (unique_loop_numbered fuel X 1 HX) as (m & Hm & Hl & ?);
    [lia|]. exists m. split; [lia|]. done.
Qed.

End unique_dest_path_facts.

Lemma unique_dest_path_fuel_enough (w : world) (dest_dir filename : string) :
  ∃ candidate counter,
    unique_loop (size (fs w) + 2) w dest_dir (splitext filename).1
      (splitext filename).2 filename 1 = Some (candidate, counter) ∧
    unique_dest_path dest_dir filename w = Ok (join dest_dir candidate) w ∧
    OS.exists_ w (join dest_dir candidate) = false.
Proof.
  pose proof (unique_loop_result w dest_dir (splitext filename).1
    (splitext filename).2 filename (size (fs w) + 2) (dom (fs w))) as H.
  unfold unique_dest_path, unique_dest_path_fuel.
  destruct (splitext filename) as [base ext]. simpl in *.
  rewrite size_dom in H.
  specialize (H (λ j _, numbered_exists_dom w dest_dir base ext j)
                (reflexivity _)).
  destruct (OS.exists_ w (join dest_dir filename)) eqn:E.
  - destruct H as (m & _ & -> & Hfree & _). by eexists _, _.
  - rewrite H. by eexists _, _.
Qed.

(** C4: the allocator returns [dest_dir/filename] when nothing is there,
    and otherwise the candidate with the least number from 1 on that is
    free; the path it returns does not exist, the world is as it was, and
    a second allocation in the same world returns the same path. *)
Theorem unique_dest_path_first_free (dest_dir filename : string) (w : world) :
  let base := (splitext filename).1 in
  let ext := (splitext filename).2 in
  ∃ p, unique_dest_path dest_dir filename w = Ok p w ∧
    OS.exists_ w p = false ∧
    (if OS.exists_ w (join dest_dir filename) then
       ∃ k, 1 ≤ k ∧ p = join dest_dir (numbered base ext k) ∧
         forallb (λ j, OS.exists_ w (join dest_dir (numbered base ext j)))
           (seq 1 (k - 1)) = true
     else p = join dest_dir filename) ∧
    (let* p1 := unique_dest_path dest_dir filename in
     let* p2 := unique_dest_path dest_dir filename in
     ret (p1, p2)) w = Ok (p, p) w.
Proof.
  intros base ext.
  pose proof (unique_loop_result w dest_dir base ext filename
    (size (fs w) + 2) (dom (fs w))) as H.
  rewrite size_dom in H.
  specialize (H (λ j _, numbered_exists_dom w dest_dir base ext j)
                (reflexivity _)).
  destruct (unique_dest_path_fuel_enough w dest_dir filename)
    as (candidate & counter & Hl & Hu & Hfree).
  exists (join dest_dir candidate). split; [done|]. split; [done|].
  split; [|by unfold bind; rewrite !Hu].
  fold base ext in Hl. destruct (OS.exists_ w (join dest_dir filename)).
  - destruct H as (m & Hm & Hl' & _ & Hall). rewrite Hl in Hl'.
    injection Hl' as -> _. exists m. split; [lia|]. done.
  - rewrite Hl in H. by injection H as -> _.
Qed.

(** C10: the allocation loop stops. Whatever finite set [X] holds the
    numbered candidates that exist, with [size X + 2] tests of its condition
    allowed the loop leaves with a free candidate after at most
    [size X + 1] rounds ([counter] starts at 1 and counts the rounds). *)
Theorem unique_dest_path_terminates (w : world) (dest_dir filename : string)
    (X : gset (list string)) (fuel : nat) :
  let base := (splitext filename).1 in
  let ext := (splitext filename).2 in
  (∀ k, OS.exists_ w (join dest_dir (numbered base ext k)) = true →
        resolve (join dest_dir (numbered base ext k)) ∈ X) →
  size X + 2 ≤ fuel →
  ∃ candidate counter,
    unique_loop fuel w dest_dir base ext filename 1 =
      Some (candidate, counter) ∧
    counter - 1 ≤ size X + 1 ∧
    OS.exists_ w (join dest_dir candidate) = false ∧
    unique_dest_path_fuel fuel w dest_dir filename =
      Some (join dest_dir candidate).
Proof.
  intros base ext HX Hf.
  pose proof (unique_loop_result w dest_dir base ext filename fuel X
    (λ j _, HX j) Hf) as H.
  unfold unique_dest_path_fuel. fold base ext.
  destruct (splitext filename) as [b e] eqn:Hs. simpl in base, ext.
  subst base ext.
  destruct (OS.exists_ w (join dest_dir filename)) eqn:E.
  - destruct H as (m & Hm & Hl & Hfree & _).
    exists (numbered b e m), (S m). rewrite Hl. split_and!; try done. lia.
  - exists filename, 1. rewrite H. split_and!; try done. simpl. lia.
Qed.

Lemma unique_dest_path_terminates_witness :
  ∃ candidate counter,
    unique_loop 5 w_alloc "d" "a" ".txt" "a.txt" 1 =
      Some (candidate, counter) ∧
    counter - 1 ≤ size (dom (fs w_alloc)) + 1 ∧
    OS.exists_ w_alloc (join "d" candidate) = false ∧
    unique_dest_path_fuel 5 w_alloc "d" "a.txt" = Some (join "d" candidate).
Proof.
  apply (unique_dest_path_terminates w_alloc "d" "a.txt"
           (dom (fs w_alloc)) 5).
  - intros k. apply numbered_exists_dom.
  - vm_compute. lia.
Defined.

Example unique_dest_path_ex :
  unique_dest_path "d" "a.txt" w_alloc = Ok "d/a(2).txt" w_alloc ∧
  unique_dest_path "d" "b.txt" w_alloc = Ok "d/b.txt" w_alloc ∧
  unique_loop 5 w_alloc "d" "a" ".txt" "a.txt" 1 = Some ("a(2).txt", 3).
Proof. by vm_compute. Qed.

(** ** The organizer *)

(** C8: when the source folder does not exist, [organize] prints one
    diagnostic line and returns the empty list; it does not raise, and the
    tree is as it was, whatever the output folder and the dry-run flag. *)
Theorem organize_missing_source (listing : list string)
    (source_folder output_folder : string) (dry_run : bool) (w : world) :
  OS.exists_ w source_folder = false →
  organize listing source_folder output_folder dry_run w =
  Ok [] (World (fs w) (denied w)
           (console w ++ ["Source folder does not exist: " +:+ source_folder])
           (clock w)).
Proof.
  intros H. unfold organize, bind, path_exists. by rewrite H.
Qed.

Lemma organize_missing_source_witness :
  OS.exists_ w_alloc "nowhere" = false ∧
  organize [] "nowhere" "out" false w_alloc =
  Ok [] (World (fs w_alloc) ∅ ["Source folder does not exist: nowhere"] 0).
Proof.
  split; [reflexivity|].
  apply (organize_missing_source [] "nowhere" "out" false w_alloc).
  reflexivity.
Defined.

(** ** More on names *)

Section name_facts.

Lemma rpartition_app (p : string) :
  (rpartition p).1 +:+ (rpartition p).2 = p ∧ no_sep (rpartition p).2 = true.
Proof.
  induction p as [|c p [IH1 IH2]]; [done|]. simpl.
  destruct (rpartition p) as [h t]. simpl in *.
  destruct (bool_decide (h = "")) eqn:Hh.
  - apply bool_decide_eq_true in Hh as ->. rewrite str_app_empty_l in IH1.
    subst t. destruct (is_sep c) eqn:Hc; simpl; [done|].
    by rewrite Hc, IH2.
  - simpl. by rewrite str_app_cons, IH1.
Qed.

Lemma rpartition_dot_app (t stem ext : string) :
  rpartition_dot t = Some (stem, ext) → stem +:+ ext = t.
Proof.
  revert stem. induction t as [|c t IH]; intros stem; [done|]. simpl.
  destruct (rpartition_dot t) as [[h e]|].
  - intros [= <- <-]. by rewrite str_app_cons, (IH h).
  - case_bool_decide; [|done]. by intros [= <- <-].
Qed.

Lemma splitext_app (p : string) : (splitext p).1 +:+ (splitext p).2 = p.
Proof.
  unfold splitext. pose proof (rpartition_app p) as [H _].
  destruct (rpartition p) as [h t]. simpl in H.
  destruct (rpartition_dot t) as [[stem ext]|] eqn:Hd;
    [|by rewrite str_app_empty_r].
  destruct (all_dots stem); simpl; [by rewrite str_app_empty_r|].
  apply rpartition_dot_app in Hd. by rewrite str_app_assoc, Hd.
Qed.

Lemma plain_iff (n : string) : plain n ↔ no_sep n = true ∧ keep n = true.
Proof.
  split.
  - intros H. split; [by apply plain_no_sep | by apply plain_keep].
  - intros [H1 H2]. split; [by apply no_sep_pieces|].
    unfold keep in H2. apply andb_true_iff in H2 as [H2 H3].
    apply negb_true_iff, bool_decide_eq_false in H2, H3. done.
Qed.

Lemma plain_nonempty (n : string) : plain n → n ≠ "".
Proof. by intros (_ & ? & _). Qed.

(** The numbered variants of a plain name are plain names. *)
Lemma plain_numbered (filename : string) (k : nat) :
  plain filename →
  plain (numbered (splitext filename).1 (splitext filename).2 k).
Proof.
  intros Hn%plain_no_sep. rewrite <-(splitext_app filename) in Hn.
  rewrite no_sep_app in Hn. apply andb_true_iff in Hn as [Hb He].
  apply plain_iff. rewrite numbered_eq. split.
  - rewrite no_sep_app, Hb, (str_app_cons _ (pretty k +:+ ")")). simpl.
    by rewrite !no_sep_app, no_sep_pretty, He.
  - rewrite (str_app_cons _ (pretty k +:+ ")")). apply keep_paren.
Qed.

Lemma endswith_sep_app_sep (a : string) :
  endswith_sep (a +:+ String sep "") = true.
Proof.
  induction a as [|c a IH]; [done|]. rewrite str_app_cons. simpl.
  destruct (a +:+ String sep "") eqn:E; [by destruct a|]. done.
Qed.

Lemma rpartition_endswith (X n : string) :
  endswith_sep X = true → no_sep n = true → rpartition (X +:+ n) = (X, n).
Proof.
  intros HX Hn. induction X as [|c X IH]; [done|].
  rewrite str_app_cons. simpl. destruct X as [|c' X'].
  - rewrite str_app_empty_l. simpl in HX.
    assert (rpartition n = ("", n)) as ->.
    { clear -Hn. induction n as [|c n IH]; [done|]. simpl in *.
      apply andb_true_iff in Hn as [Hc Hn]. rewrite (IH Hn). simpl.
      apply negb_true_iff in Hc. by rewrite Hc. }
    simpl. by rewrite HX.
  - rewrite IH by done. by rewrite bool_decide_eq_false_2.
Qed.

Lemma all_sep_endswith (s : string) :
  s ≠ "" → all_sep s = true → endswith_sep s = true.
Proof.
  induction s as [|c s IH]; [done|]. intros _ [Hc Hs]%andb_true_iff.
  simpl. destruct s; [done|]. by apply IH.
Qed.

Lemma rstrip_sep_spec (s : string) :
  ∃ t, all_sep t = true ∧ s = rstrip_sep s +:+ t ∧
       (all_sep s = false → rstrip_sep s ≠ "").
Proof.
  induction s as [|c s (t & Ht & Hs & Hn)]; [by exists ""|]. simpl.
  destruct (rstrip_sep s) as [|c' r] eqn:Hr.
  - rewrite str_app_empty_l in Hs. subst t.
    destruct (is_sep c) eqn:Hc.
    + exists (String c s). simpl. rewrite Hc, Ht. split_and!; try done.
    + exists s. by rewrite str_app_cons, str_app_empty_l.
  - exists t. split_and!; [done| |done].
    by rewrite str_app_cons, <-Hs.
Qed.

Lemma pieces_app_sep (s : string) :
  pieces (s +:+ String sep "") = pieces s ++ [""].
Proof.
  destruct (pieces_app s (String sep "")) as (l & x & y & r & H1 & H2 & H3).
  simpl in H2. injection H2 as <- <-.
  by rewrite H3, H1, str_app_empty_r, <-(assoc_L (++)).
Qed.

Lemma resolve_app_sep (s : string) :
  s ≠ "" → resolve (s +:+ String sep "") = resolve s.
Proof.
  intros Hs. unfold resolve.
  rewrite startswith_sep_app, pieces_app_sep, filter_app by done.
  by rewrite filter_keep_cons, app_nil_r.
Qed.

Lemma resolve_app_all_sep (s t : string) :
  s ≠ "" → all_sep t = true → resolve (s +:+ t) = resolve s.
Proof.
  revert s. induction t as [|c t IH]; intros s Hs; simpl.
  { by rewrite str_app_empty_r. }
  intros [Hc Ht]%andb_true_iff. apply bool_decide_eq_true in Hc as ->.
  change (String sep t) with (String sep "" +:+ t).
  rewrite <-str_app_assoc, IH; [by apply resolve_app_sep| |done].
  by apply str_app_nonempty_r.
Qed.

(** [os.path.dirname] of a plain name joined to a directory names that
    directory. *)
Lemma dirname_join (a n : string) :
  a ≠ "" → plain n →
  dirname (join a n) ≠ "" ∧ resolve (dirname (join a n)) = resolve a.
Proof.
  intros Ha Hn. pose proof (plain_no_sep _ Hn) as Hns.
  assert (∃ X, join a n = X +:+ n ∧ endswith_sep X = true ∧
               X ≠ "" ∧ resolve X = resolve a ∧
               (all_sep X = true → X = a)) as (X & -> & HX & HX0 & HXr & HXa).
  { unfold join. rewrite (no_sep_startswith _ Hns).
    rewrite bool_decide_eq_false_2 by done. simpl.
    destruct (endswith_sep a) eqn:He.
    - by exists a.
    - exists (a +:+ String sep ""). split_and!.
      + by rewrite str_app_assoc.
      + apply endswith_sep_app_sep.
      + by apply str_app_nonempty_r.
      + by apply resolve_app_sep.
      + intros H. exfalso.
        assert (all_sep a = true) as Ha'.
        { clear -H. induction a as [|c a IH]; [done|].
          rewrite str_app_cons in H. simpl in *.
          apply andb_true_iff in H as [-> H]. by rewrite IH. }
        apply all_sep_endswith in Ha'; congruence. }
  unfold dirname, split. rewrite (rpartition_endswith _ _ HX Hns). simpl.
  rewrite bool_decide_eq_false_2 by done. simpl.
  destruct (all_sep X) eqn:Hall; simpl.
  - by rewrite (HXa eq_refl) in *.
  - destruct (rstrip_sep_spec X) as (t & Ht & HXt & Hne).
    split; [by apply Hne|].
    rewrite <-HXr. rewrite HXt at 2.
    symmetry. apply resolve_app_all_sep; [by apply Hne | done].
Qed.

End name_facts.

(** ** One file of the scan *)

Section organize_file_facts.

Lemma category_scan_elem (table : list (string * list string))
    (ext cat : string) :
  category_scan table ext = Some cat → cat ∈ table.*1.
Proof.
  induction table as [|[c exts] table IH]; [done|]. simpl.
  case_bool_decide.
  - intros [= ->]. by left.
  - intros Hrest. right. by apply IH.
Qed.

Lemma category_of_elem (filename : string) :
  category_of filename ∈ "Others" :: FILE_TYPES.*1.
Proof.
  unfold category_of, get_category_for_extension.
  destruct (category_scan _ _) as [cat|] eqn:E; simpl.
  - right. by apply category_scan_elem in E.
  - by left.
Qed.

Lemma category_of_plain (filename : string) :
  plain (category_of filename) ∧ category_of filename ≠ LOG_FILENAME.
Proof.
  pose proof (category_of_elem filename) as H.
  assert (Forall (λ c, plain c ∧ c ≠ LOG_FILENAME)
            ("Others" :: FILE_TYPES.*1)) as Hall.
  { repeat constructor; done. }
  by eapply Forall_forall in Hall.
Qed.

Lemma unique_dest_path_candidate (dest_dir filename : string) (w : world) :
  plain filename →
  ∃ candidate,
    unique_dest_path dest_dir filename w = Ok (join dest_dir candidate) w ∧
    plain candidate ∧
    fs w !! (resolve dest_dir ++ [candidate]) = None.
Proof.
  intros Hn.
  pose proof (unique_loop_result w dest_dir (splitext filename).1
    (splitext filename).2 filename (size (fs w) + 2) (dom (fs w))) as H.
  rewrite size_dom in H.
  specialize (H (λ j _, numbered_exists_dom w dest_dir _ _ j)
                (reflexivity _)).
  destruct (unique_dest_path_fuel_enough w dest_dir filename)
    as (candidate & counter & Hl & Hu & Hfree).
  exists candidate. split; [done|].
  assert (plain candidate) as Hc.
  { destruct (OS.exists_ w (join dest_dir filename)).
    - destruct H as (m & _ & Hl' & _). rewrite Hl in Hl'.
      injection Hl' as -> _. by apply plain_numbered.
    - rewrite Hl in H. by injection H as -> _. }
  split; [done|].
  unfold OS.exists_ in Hfree. rewrite (resolve_join _ _ Hc) in Hfree.
  rewrite node_at_snoc in Hfree by done.
  rewrite bool_decide_eq_false_2 in Hfree
    by (apply join_nonempty, plain_nonempty, Hc).
  simpl in Hfree. apply bool_decide_eq_false in Hfree.
  by apply eq_None_not_Some.
Qed.

Lemma anchor_snoc (k : list string) (n : string) :
  plain n → OS.anchor (k ++ [n]) = false.
Proof.
  intros (Hp & _ & _). unfold OS.anchor.
  rewrite bool_decide_eq_false_2 by (by destruct k).
  rewrite bool_decide_eq_false_2; [done|].
  destruct k as [|c [|c' k]]; simpl; try done. by intros [= ->].
Qed.

(** Moving a regular file to a free path. *)
Lemma move_file (src dst : string) (a b : list string) (n : string)
    (c : content) (w : world) :
  src ≠ "" → dst ≠ "" → resolve src = a → resolve dst = b ++ [n] →
  plain n → OS.anchor a = false →
  fs w !! a = Some (File c) → fs w !! (b ++ [n]) = None →
  OS.node_at (fs w) b = Some Dir →
  OS.move src dst w =
  if bool_decide (a ∈ denied w) || bool_decide (b ++ [n] ∈ denied w)
  then Raise PermissionError w
  else Ok tt (set_fs (<[b ++ [n] := File c]> (delete a (fs w))) w).
Proof.
  intros Hs Hd Ha Hb Hn Hanc Hsrc Hdst Hpar. unfold OS.move, OS.isdir.
  rewrite Ha, Hb, (node_at_snoc _ _ _ Hn), Hdst. simpl.
  rewrite andb_false_r. simpl.
  rewrite !bool_decide_eq_false_2 by done. simpl.
  rewrite Hanc, Hsrc, Hb, parent_snoc, Hpar. simpl.
  by rewrite (node_at_snoc _ _ _ Hn), Hdst.
Qed.

End organize_file_facts.

Lemma isdir_snoc_file (w : world) (a n : string) (c : content) :
  plain n → fs w !! (resolve a ++ [n]) = Some (File c) →
  OS.isdir w (join a n) = false.
Proof.
  intros Hn Hf. unfold OS.isdir.
  rewrite (resolve_join _ _ Hn), (node_at_snoc _ _ _ Hn), Hf. simpl.
  apply andb_false_r.
Qed.

Lemma isdir_node (w : world) (p : string) :
  OS.isdir w p = true → OS.node_at (fs w) (resolve p) = Some Dir.
Proof.
  unfold OS.isdir. intros [_ H]%andb_true_iff.
  by destruct (OS.node_at (fs w) (resolve p)) as [[]|].
Qed.

Lemma organize_file_regular (source out n : string) (st st' : scan)
    (w w' : world) (c : content) :
  plain n →
  fs w !! (resolve source ++ [n]) = Some (File c) →
  organize_file source out false n st w = Ok st' w' →
  ∃ w1 cand,
    ensure_dir (join out (category_of n)) w = Ok tt w1 ∧
    plain cand ∧
    fs w1 !! (resolve out ++ [category_of n; cand]) = None ∧
    denied w' = denied w ∧
    ((st' = Scan (moved_entries st) (counts st) (skipped st + 1)
              (total st + 1) ∧
      fs w' = fs w1) ∨
     (st' = Scan (moved_entries st ++
                    [move_record (pretty (clock w)) (join source n)
                       (join (join out (category_of n)) cand)])
              (counts_incr (category_of n) (counts st)) (skipped st)
              (total st + 1) ∧
      fs w' = <[resolve out ++ [category_of n; cand] := File c]>
                (delete (resolve source ++ [n]) (fs w1)) ∧
      (resolve source ++ [n] ∉ denied w) ∧
      (resolve out ++ [category_of n; cand] ∉ denied w))).
Proof.
  intros Hn Hf. destruct (category_of_plain n) as [Hcat _].
  unfold organize_file, bind at 1, path_isdir.
  rewrite (isdir_snoc_file _ _ _ _ Hn Hf). unfold bind at 1.
  destruct (ensure_dir (join out (category_of n)) w) as [[] w1|e w1] eqn:Hm;
    [|done].
  destruct (makedirs_inv _ _ _ w1 Hm (or_introl eq_refl))
    as (Hden & Hcon & Hclk & Hk).
  assert (fs w1 !! (resolve source ++ [n]) = Some (File c)) as Hf1.
  { destruct (Hk (resolve source ++ [n])) as [->|(? & _)]; congruence. }
  pose proof (isdir_node _ _ (makedirs_isdir _ _ _ Hm)) as Hd.
  rewrite (resolve_join _ _ Hcat) in Hd.
  destruct (unique_dest_path_candidate (join out (category_of n)) n w1 Hn)
    as (cand & Hu & Hc & Hfree).
  rewrite (resolve_join _ _ Hcat), <-(assoc_L (++)) in Hfree. simpl in Hfree.
  unfold bind at 1. rewrite Hu. simpl.
  unfold try_except, bind at 1.
  rewrite (move_file (join source n) (join (join out (category_of n)) cand)
             (resolve source ++ [n]) (resolve out ++ [category_of n]) cand c).
  2: by apply join_nonempty, plain_nonempty.
  2: by apply join_nonempty, plain_nonempty.
  2: by apply resolve_join.
  2: by rewrite !resolve_join.
  2: done.
  2: by apply anchor_snoc.
  2: done.
  2: by rewrite <-(assoc_L (++)).
  2: done.
  rewrite <-(assoc_L (++)). simpl.
  destruct (bool_decide (resolve source ++ [n] ∈ denied w1)) eqn:E1; simpl.
  { intros [= <- <-]. exists w1, cand. split_and!; try done. by left. }
  destruct (bool_decide (resolve out ++ [category_of n; cand] ∈ denied w1))
    eqn:E2; simpl.
  { intros [= <- <-]. exists w1, cand. split_and!; try done. by left. }
  intros [= <- <-]. exists w1, cand. split_and!; try done. right.
  apply bool_decide_eq_false in E1, E2. rewrite Hden in E1, E2.
  by rewrite Hclk.
Qed.

Lemma organize_file_dir (source out n : string) (dry_run : bool) (st : scan)
    (w : world) :
  plain n →
  fs w !! (resolve source ++ [n]) = Some Dir →
  organize_file source out dry_run n st w = Ok st w.
Proof.
  intros Hn Hf. unfold organize_file, bind, path_isdir, OS.isdir.
  rewrite (resolve_join _ _ Hn), (node_at_snoc _ _ _ Hn), Hf. simpl.
  rewrite bool_decide_eq_false_2; [done|].
  by apply join_nonempty, plain_nonempty.
Qed.

Example category_of_ex :
  category_of "PHOTO.JPG" = "Images" ∧ category_of "notes.Txt" = "Documents" ∧
  category_of "data.xyz" = "Others" ∧ category_of "Makefile" = "Others" ∧
  get_category_for_extension ".xyz" = None ∧
  get_category_for_extension ".JPG" = None.
Proof. by vm_compute. Qed.

Lemma lower_ascii_spec (c : ascii) : lower_ascii c = spec_normalize_char c.
Proof. by destruct c as [[] [] [] [] [] [] [] []]. Qed.

Lemma lower_spec (s : string) : lower s = spec_normalize s.
Proof.
  induction s as [|c s IH]; [done|]. simpl. by rewrite IH, lower_ascii_spec.
Qed.

Lemma category_scan_Some (table : list (string * list string))
    (ext cat : string) :
  category_scan table ext = Some cat →
  ∃ exts, (cat, exts) ∈ table ∧ ext ∈ exts.
Proof.
  induction table as [|[cat' exts] table IH]; simpl; [done|].
  case_bool_decide as Hin.
  - intros [= <-]. exists exts. split; [left|done].
  - intros (exts' & Hin' & Hext)%IH. exists exts'. split; [by right|done].
Qed.

Lemma get_category_for_extension_listed (ext cat : string)
    (exts : list string) :
  (cat, exts) ∈ FILE_TYPES → ext ∈ exts →
  get_category_for_extension ext = Some cat.
Proof.
  intros Hin Hext. unfold FILE_TYPES in Hin.
  repeat (apply elem_of_cons in Hin as [Hin|Hin];
    [injection Hin as -> ->;
     repeat (apply elem_of_cons in Hext as [->|Hext]; [reflexivity|]);
     by apply elem_of_nil in Hext|]).
  by apply elem_of_nil in Hin.
Qed.

Lemma category_of_spec (filename category : string) :
  spec_category (splitext filename).2 category →
  category_of filename = category.
Proof.
  unfold category_of. rewrite lower_spec.
  intros [(exts & Hin & Hext)|[-> Hfree]].
  - by rewrite (get_category_for_extension_listed _ _ _ Hin Hext).
  - destruct (get_category_for_extension _) as [cat|] eqn:Hget; [|done].
    apply category_scan_Some in Hget as (exts & Hin & Hext).
    by destruct (Hfree cat exts).
Qed.

(** C5: the organizer looks the extension of a scanned file up in
    [FILE_TYPES] after writing its capital letters small: when the table
    lists the normalized extension under a category, that category is the
    file's, and when no category lists it, the file's category is
    [Others]. When the round of the scan for a regular file ends with the
    file moved, the file is one step below the folder of that category in
    the output folder, and the record says so. *)
Theorem scanned_file_goes_to_its_category
    (source_folder output_folder filename category : string)
    (st st' : scan) (w w' : world) (c : content) :
  plain filename →
  fs w !! (resolve source_folder ++ [filename]) = Some (File c) →
  spec_category (splitext filename).2 category →
  organize_file source_folder output_folder false filename st w = Ok st' w' →
  skipped st' = skipped st →
  default "Others"
    (get_category_for_extension (lower (splitext filename).2)) = category ∧
  ∃ name,
    fs w' !! (resolve output_folder ++ [category; name]) = Some (File c) ∧
    fs w !! (resolve output_folder ++ [category; name]) = None ∧
    resolve (join (join output_folder category) name) =
      resolve output_folder ++ [category; name] ∧
    moved_entries st' =
      moved_entries st ++
      [move_record (pretty (clock w)) (join source_folder filename)
         (join (join output_folder category) name)].
Proof.
  intros Hn Hf Hspec Hrun Hskip.
  pose proof (category_of_spec _ _ Hspec) as Hcat.
  split; [done|].
  destruct (category_of_plain filename) as [Hplain _].
  destruct (organize_file_regular _ _ _ _ _ _ _ _ Hn Hf Hrun)
    as (w1 & cand & Hm & Hc & Hfree & _ & [[-> _]|(-> & Hfs & _)]).
  { simpl in Hskip. lia. }
  rewrite Hcat in *. exists cand. split_and!.
  - by rewrite Hfs, lookup_insert_eq.
  - destruct (makedirs_inv _ _ _ w1 Hm (or_introl eq_refl))
      as (_ & _ & _ & Hk).
    destruct (Hk (resolve output_folder ++ [category; cand]))
      as [<-|(? & ? & _)]; congruence.
  - rewrite !resolve_join by done. by rewrite <-(assoc_L (++)).
  - done.
Qed.

(** ** Dry runs *)

Lemma dirs_added_refl (F : gmap (list string) node) : dirs_added F F.
Proof. intros k. by left. Qed.

Lemma dirs_added_trans (F G H : gmap (list string) node) :
  dirs_added F G → dirs_added G H → dirs_added F H.
Proof.
  intros HFG HGH k. destruct (HFG k) as [E1|[E1 E1']], (HGH k) as [E2|[E2 E2']].
  - left. congruence.
  - right. split; congruence.
  - right. split; congruence.
  - congruence.
Qed.

Lemma makedirs_dirs_added (p : string) (w w1 : world) (r : outcome unit) :
  OS.makedirs p w = r → (r = Ok tt w1 ∨ ∃ e, r = Raise e w1) →
  dirs_added (fs w) (fs w1).
Proof.
  intros H Hr k. destruct (makedirs_inv _ _ _ _ H Hr) as (_ & _ & _ & Hk).
  destruct (Hk k) as [|(? & ? & _)]; auto.
Qed.

Lemma organize_file_dry (source out n : string) (st st' : scan)
    (w w' : world) :
  organize_file source out true n st w = Ok st' w' →
  moved_entries st' = moved_entries st ∧ dirs_added (fs w) (fs w').
Proof.
  unfold organize_file, bind at 1, path_isdir.
  destruct (OS.isdir w (join source n)).
  { intros [= <- <-]. split; [done | apply dirs_added_refl]. }
  unfold bind at 1.
  destruct (ensure_dir (join out (category_of n)) w) as [[] w1|e w1] eqn:Hm;
    [|done].
  destruct (unique_dest_path_fuel_enough w1 (join out (category_of n)) n)
    as (cand & counter & _ & Hu & _).
  unfold bind at 1. rewrite Hu. simpl. unfold bind, OS.print, ret. simpl.
  intros [= <- <-]. split; [done|]. simpl.
  eapply makedirs_dirs_added; [exact Hm | by left].
Qed.

Lemma organize_files_dry (source out : string) (names : list string)
    (st st' : scan) (w w' : world) :
  organize_files source out true names st w = Ok st' w' →
  moved_entries st' = moved_entries st ∧ dirs_added (fs w) (fs w').
Proof.
  revert st w. induction names as [|n names IH]; intros st w; simpl.
  { intros [= <- <-]. split; [done | apply dirs_added_refl]. }
  unfold bind at 1.
  destruct (organize_file source out true n st w) as [st1 w1|] eqn:H1; [|done].
  apply organize_file_dry in H1 as [E1 D1].
  intros [E2 D2]%IH. split; [congruence|]. by eapply dirs_added_trans.
Qed.

Lemma print_counts_fs (counts : list (string * nat)) (w : world) :
  ∃ w', print_counts counts w = Ok tt w' ∧ fs w' = fs w.
Proof.
  revert w. induction counts as [|[cat cnt] counts IH]; intros w; simpl.
  { by exists w. }
  unfold bind, OS.print. simpl.
  destruct (IH (World (fs w) (denied w)
                  (console w ++ [cat +:+ ": " +:+ pretty cnt]) (clock w)))
    as (w' & -> & E). by exists w'.
Qed.

(** X16. What does hold of a dry run: it returns no record, and it leaves
    every file, the log among them, and every directory in place; all it
    can do to the tree is add directories. *)
Lemma organize_dry_run_dirs_added (listing : list string)
    (source out : string) (w w' : world) (entries : list json) :
  organize listing source out true w = Ok entries w' →
  entries = [] ∧ dirs_added (fs w) (fs w').
Proof.
  unfold organize, bind at 1, path_exists.
  destruct (OS.exists_ w source); simpl.
  2: { unfold bind, OS.print, ret. simpl. intros [= <- <-].
       split; [done | apply dirs_added_refl]. }
  unfold bind at 1.
  destruct (ensure_dir out w) as [[] w0|] eqn:Hm; [|done].
  apply (makedirs_dirs_added _ _ w0) in Hm as D0; [|by left].
  unfold bind at 1, OS.listdir.
  destruct (OS.isdir w0 source); [|by destruct (OS.exists_ w0 source)].
  unfold bind at 1.
  destruct (organize_files source out true listing (Scan [] [] 0 0) w0)
    as [st w1|] eqn:Hl; [|done].
  apply organize_files_dry in Hl as [E1 D1]. simpl in E1. rewrite E1.
  unfold bind at 1, OS.print at 1. simpl. unfold bind at 1.
  destruct (print_counts_fs (counts st)
              (World (fs w1) (denied w1)
                 (console w1 ++ [newline +:+ "--- summary ---"]) (clock w1)))
    as (w2 & -> & E2). simpl in E2.
  unfold bind, OS.print, ret. simpl. intros [= <- <-]. split; [done|]. simpl.
  rewrite E2. by eapply dirs_added_trans.
Qed.

(** ** Worked runs *)

(** C2, on the code: a dry run of [organize] on a folder with one file and
    an output folder that does not exist creates the output folder and the
    category folder ([ensure_dir] at lines 135 and 150 comes before the
    test of [dry_run] at line 154), although it moves nothing and writes
    no log. *)
Theorem organize_dry_run_creates_directories :
  ∃ w',
    organize ["a.txt"; "data.xyz"] "inbox" "out" true w_inbox = Ok [] w' ∧
    fs w_inbox !! ["out"] = None ∧
    fs w' !! ["out"] = Some Dir ∧
    fs w' !! ["out"; "Documents"] = Some Dir ∧
    fs w' !! ["out"; "Others"] = Some Dir ∧
    fs w' !! ["inbox"; "a.txt"] = Some (File (Bytes "A")) ∧
    fs w' !! ["out"; "organize_log.json"] = None ∧
    console w' =
      [ "[DRY RUN] Would move: inbox/a.txt -> out/Documents/a.txt";
        "[DRY RUN] Would move: inbox/data.xyz -> out/Others/data.xyz";
        newline +:+ "--- summary ---";
        "Total files scanned: 2";
        "Skipped (failed or directories): 0";
        newline +:+ "No files were moved (dry run or nothing to move)." ].
Proof. eexists. split; [by vm_compute|]. by vm_compute. Qed.

(** C1, on the code: [undo_moves] on a log of two records of which the
    second cannot be restored. [a.txt] goes back, and the log file then
    holds the old list followed by the failed record, the restored record
    included: [write_log] at line 116 appends to the list it finds. *)
Theorem undo_partial_failure_appends :
  ∃ w',
    undo_moves "out" (w_blocked [e_a; e_b]) = Ok tt w' ∧
    fs w' !! ["inbox"; "a.txt"] = Some (File (Bytes "A")) ∧
    fs w' !! ["out"; "Documents"; "a.txt"] = None ∧
    fs w' !! ["out"; "Documents"; "b.txt"] = Some (File (Bytes "B")) ∧
    fs w' !! ["out"; "organize_log.json"] =
      Some (File (Json (JList [e_a; e_b; e_b]))) ∧
    console w' =
      [ "Failed to restore out/Documents/b.txt -> inbox/b.txt: Error";
        "Restored: out/Documents/a.txt -> inbox/a.txt";
        "Undo finished with some failures. Remaining failed entries saved to log." ].
Proof. eexists. split; [by vm_compute|]. by vm_compute. Qed.

(** C9, on the code: a record without ["src"] is passed over in silence,
    and when another record fails it is still in the log that [undo_moves]
    writes back, for the same reason as in [undo_partial_failure_appends]. *)
Theorem undo_keeps_malformed_entry :
  ∃ w',
    undo_moves "out" (w_blocked [e_nosrc; e_b]) = Ok tt w' ∧
    fs w' !! ["out"; "Documents"; "a.txt"] = Some (File (Bytes "A")) ∧
    fs w' !! ["out"; "organize_log.json"] =
      Some (File (Json (JList [e_nosrc; e_b; e_b]))) ∧
    console w' =
      [ "Failed to restore out/Documents/b.txt -> inbox/b.txt: Error";
        "Undo finished with some failures. Remaining failed entries saved to log." ].
Proof. eexists. split; [by vm_compute|]. by vm_compute. Qed.

(** X10. What does hold of such a record: a record without [src] or
    [dest], or with an empty or null one, is passed over; its round of the
    loop does nothing at all, whatever the world and the failures so
    far. *)
Lemma undo_entry_skips_malformed (items : list (string * json))
    (failed : list json) (w : world) :
  let get key :=
    default JNull (snd <$> find (λ kv, bool_decide (kv.1 = key)) items) in
  truthy (get "src") = false ∨ truthy (get "dest") = false →
  undo_entry (JDict items) failed w = Ok failed w.
Proof.
  intros get H. unfold undo_entry, dict_get, bind, ret. fold (get "src").
  fold (get "dest"). destruct H as [-> | ->]; [|done].
  by rewrite orb_true_r.
Qed.

(** And when every other record is restored, the log goes and the record
    with it. *)
Example undo_loses_malformed_entry :
  ∃ w',
    undo_moves "out"
      (World (delete ["inbox"; "b.txt"; "b.txt"]
                (delete ["inbox"; "b.txt"] (fs (w_blocked [e_nosrc; e_b]))))
         ∅ [] 0) = Ok tt w' ∧
    fs w' !! ["inbox"; "b.txt"] = Some (File (Bytes "B")) ∧
    fs w' !! ["out"; "Documents"; "a.txt"] = Some (File (Bytes "A")) ∧
    fs w' !! ["out"; "organize_log.json"] = None ∧
    console w' = [ "Restored: out/Documents/b.txt -> inbox/b.txt";
                   "Undo complete. Log removed." ].
Proof. eexists. split; [by vm_compute|]. by vm_compute. Qed.

(** ** Organize, then undo *)

Section undo_facts.
Context (source out : string) (C : list string → Prop)
  (den : gset (list string)).
Local Abbreviation L := (resolve out ++ [LOG_FILENAME]).
Local Abbreviation D := (resolve source).

Lemma extends_refl F : extends C L F F.
Proof. intros k. by left. Qed.

Lemma extends_trans F G H :
  extends C L F G → extends C L G H → extends C L F H.
Proof.
  intros HFG HGH k.
  destruct (HFG k) as [E1|[E1 E1']], (HGH k) as [E2|[E2 E2']].
  - left. congruence.
  - right. split; [congruence | done].
  - right. split; [done|]. destruct E1' as [[? ?]|?]; [left|right]; try done.
    split; [congruence | done].
  - right. split; [done|]. destruct E1' as [[? ?]|?]; [|by right]. congruence.
Qed.

Lemma extends_Some F G k x :
  extends C L F G → F !! k = Some x → G !! k = Some x.
Proof. intros H Hk. destruct (H k) as [->|[? _]]; congruence. Qed.

Lemma node_at_extends F G k :
  extends C L F G → OS.node_at F k = Some Dir → OS.node_at G k = Some Dir.
Proof.
  intros H. unfold OS.node_at. destruct (OS.anchor k); [done|].
  by apply extends_Some.
Qed.

Lemma set_fs_id (w : world) : set_fs (fs w) w = w.
Proof. by destruct w. Qed.

Lemma mkdirs_noop (pre rest : list string) (F : gmap (list string) node) :
  (∀ m, 0 < m ≤ length rest → OS.node_at F (pre ++ take m rest) = Some Dir) →
  OS.mkdirs pre rest F = (inr tt, F).
Proof.
  revert pre. induction rest as [|c rest IH]; intros pre H; [done|]. simpl.
  pose proof (H 1) as H1. simpl in H1. rewrite take_0 in H1.
  rewrite H1 by lia. apply IH. intros m Hm.
  rewrite <-(assoc_L (++)). apply (H (S m)). simpl. lia.
Qed.

Lemma ensure_dir_noop (p : string) (w : world) :
  p ≠ "" → prefixes_dir (fs w) (resolve p) → ensure_dir p w = Ok tt w.
Proof.
  intros Hp H. unfold ensure_dir, OS.makedirs.
  rewrite bool_decide_eq_false_2 by done.
  rewrite mkdirs_noop by (intros m _; apply H). by rewrite set_fs_id.
Qed.

Lemma dict_get_src (ts s d : string) :
  dict_get "src" (move_record ts s d) = ret (JStr s).
Proof. reflexivity. Qed.

Lemma dict_get_dest (ts s d : string) :
  dict_get "dest" (move_record ts s d) = ret (JStr d).
Proof. reflexivity. Qed.

(** Undoing one record whose destination is there and whose source path is
    free. *)
Lemma undo_entry_restores (n cand ts : string) (c : content)
    (failed : list json) (g : world) :
  source ≠ "" → plain n → plain cand →
  fs g !! (resolve out ++ [category_of n; cand]) = Some (File c) →
  fs g !! (D ++ [n]) = None →
  prefixes_dir (fs g) D →
  D ++ [n] ∉ denied g →
  resolve out ++ [category_of n; cand] ∉ denied g →
  ∃ g',
    undo_entry (move_record ts (join source n)
                  (join (join out (category_of n)) cand)) failed g =
      Ok failed g' ∧
    fs g' = <[D ++ [n] := File c]>
              (delete (resolve out ++ [category_of n; cand]) (fs g)) ∧
    denied g' = denied g.
Proof.
  intros Hs Hn Hc Hdest Hsrc Hpre Hd1 Hd2.
  destruct (category_of_plain n) as [Hcat _].
  assert (resolve (join (join out (category_of n)) cand) =
          (resolve out ++ [category_of n]) ++ [cand]) as Hrd
    by (by rewrite !resolve_join).
  assert (join (join out (category_of n)) cand ≠ "") as Hne1
    by (by apply join_nonempty, plain_nonempty).
  assert (join source n ≠ "") as Hne2
    by (by apply join_nonempty, plain_nonempty).
  destruct (dirname_join source n Hs Hn) as [Hdn Hdr].
  unfold undo_entry. rewrite dict_get_src, dict_get_dest.
  unfold bind at 1, ret at 1. unfold bind at 1, ret at 1. simpl.
  rewrite !bool_decide_eq_false_2 by done. simpl.
  unfold bind at 1, path_exists, OS.exists_.
  rewrite Hrd, (node_at_snoc _ _ _ Hc), <-(assoc_L (++)). simpl.
  rewrite Hdest, bool_decide_eq_false_2 by done. simpl.
  unfold bind at 1. rewrite ensure_dir_noop by (by rewrite ?Hdr).
  unfold try_except, bind at 1.
  rewrite (move_file (join (join out (category_of n)) cand) (join source n)
             (resolve out ++ [category_of n; cand]) D n c).
  2, 3: done.
  2: by rewrite Hrd, <-(assoc_L (++)).
  2: by apply resolve_join.
  2: done.
  2: { rewrite (assoc_L (++) _ [_] [_] :
         resolve out ++ [category_of n; cand] = _). by apply anchor_snoc. }
  2, 3: done.
  2: { specialize (Hpre (length D)). by rewrite firstn_all in Hpre. }
  rewrite !bool_decide_eq_false_2 by done. simpl.
  unfold bind, OS.print, ret. simpl. eexists. split; [done|]. done.
Qed.

Lemma undo_entries_app (l1 l2 failed : list json) (w : world) :
  undo_entries (l1 ++ l2) failed w =
  match undo_entries l1 failed w with
  | Ok failed' w' => undo_entries l2 failed' w'
  | Raise e w' => Raise e w'
  end.
Proof.
  revert failed w. induction l1 as [|e l1 IH]; intros failed w; [done|].
  simpl. unfold bind. destruct (undo_entry e failed w); [apply IH | done].
Qed.

Lemma node_at_move_file (F : gmap (list string) node) (a b k : list string)
    (c : content) :
  F !! a = Some (File c) → F !! b = None →
  OS.node_at F k = Some Dir →
  OS.node_at (<[b := File c]> (delete a F)) k = Some Dir.
Proof.
  intros Ha Hb. unfold OS.node_at. destruct (OS.anchor k); [done|].
  intros Hk. rewrite lookup_insert_ne, lookup_delete_ne; congruence.
Qed.

(** Undoing the records of a run of moves in reverse leads back to the
    tree the moves started from, up to the directories that were added. *)
Lemma undo_entries_moves (F F' : gmap (list string) node)
    (entries : list json) :
  source ≠ "" →
  moves source out C den F entries F' →
  ∀ g failed,
    extends C L F' (fs g) → denied g = den →
    ∃ g',
      undo_entries (reverse entries) failed g = Ok failed g' ∧
      extends C L F (fs g') ∧ denied g' = den ∧
      fs g' !! L = fs g !! L.
Proof.
  intros Hs. induction 1 as [F F' HFF'|F F1 F' n cand c ts entries
    HFF1 Hpre Hn Hc Hsrc Hdest Hd1 Hd2 HC HL Hm IH]; intros g failed Hg Hden.
  { exists g. split_and!; try done. by eapply extends_trans. }
  rewrite reverse_cons, undo_entries_app.
  destruct (IH g failed Hg Hden) as (g1 & -> & Hg1 & Hden1 & HL1).
  assert (resolve out ++ [category_of n; cand] ≠ D ++ [n]) as Hne
    by congruence.
  destruct (undo_entry_restores n cand ts c failed g1)
    as (g' & Hu & Hfs & Hden'); try done.
  - eapply extends_Some; [done|]. by rewrite lookup_insert_eq.
  - destruct (Hg1 (D ++ [n])) as [E|[_ [[_ ?]|?]]]; try done.
    by rewrite E, lookup_insert_ne, lookup_delete_eq.
  - intros m. eapply node_at_extends; [done|].
    by apply node_at_move_file.
  - by rewrite Hden1.
  - by rewrite Hden1.
  - simpl. unfold bind. rewrite Hu. simpl. exists g'. split_and!; try done.
    + eapply extends_trans; [done|]. intros k. rewrite Hfs.
      destruct (decide (k = D ++ [n])) as [->|Hk1].
      { left. by rewrite lookup_insert_eq. }
      rewrite lookup_insert_ne by done.
      destruct (decide (k = resolve out ++ [category_of n; cand])) as [->|Hk2].
      { left. by rewrite lookup_delete_eq. }
      rewrite lookup_delete_ne by done.
      destruct (Hg1 k) as [E|[E ?]].
      * left. by rewrite E, lookup_insert_ne, lookup_delete_ne.
      * right. by rewrite lookup_insert_ne, lookup_delete_ne in E.
    + congruence.
    + rewrite Hfs, lookup_insert_ne, lookup_delete_ne, HL1; try done.
      intros E%app_inv_head. discriminate.
Qed.

End undo_facts.

Section organize_facts.
Context (source out : string) (C : list string → Prop).
Local Abbreviation L := (resolve out ++ [LOG_FILENAME]).
Local Abbreviation D := (resolve source).
Local Abbreviation O := (resolve out).

Lemma mkdirs_anchor (pre rest : list string) (F F' : gmap (list string) node)
    (r : exn + unit) (k : list string) :
  OS.mkdirs pre rest F = (r, F') → OS.anchor k = true → F' !! k = F !! k.
Proof.
  revert pre F. induction rest as [|c rest IH]; intros pre F; simpl.
  { by intros [= _ <-]. }
  destruct (OS.node_at F (pre ++ [c])) as [[?|]|] eqn:Hq.
  - by intros [= _ <-].
  - apply IH.
  - intros Hm Hk. rewrite (IH _ _ Hm Hk). apply lookup_insert_ne.
    intros <-. unfold OS.node_at in Hq. by rewrite Hk in Hq.
Qed.

Lemma filter_ext_elem {A} (P Q : A → bool) (l : list A) :
  (∀ x, x ∈ l → P x = Q x) →
  filter (λ x, P x) l = filter (λ x, Q x) l.
Proof.
  induction l as [|x l IH]; intros H; [done|].
  rewrite !filter_cons, (H x) by left.
  rewrite IH by (intros y Hy; apply H; by right). done.
Qed.

Lemma regular_lookup (w w' : world) (n : string) :
  plain n → fs w' !! (D ++ [n]) = fs w !! (D ++ [n]) →
  regular w' source n = regular w source n.
Proof.
  intros Hn E. unfold regular, OS.isdir.
  by rewrite (resolve_join _ _ Hn), !(node_at_snoc _ _ _ Hn), E.
Qed.

Lemma regular_file (w : world) (n : string) (c : content) :
  plain n → fs w !! (D ++ [n]) = Some (File c) → regular w source n = true.
Proof.
  intros Hn E. unfold regular. by rewrite (isdir_snoc_file _ _ _ c).
Qed.

Lemma regular_dir (w : world) (n : string) :
  plain n → fs w !! (D ++ [n]) = Some Dir → regular w source n = false.
Proof.
  intros Hn E. unfold regular, OS.isdir.
  rewrite (resolve_join _ _ Hn), (node_at_snoc _ _ _ Hn), E. simpl.
  rewrite bool_decide_eq_false_2; [done|].
  by apply join_nonempty, plain_nonempty.
Qed.

(** Making a category directory below an output directory that is there
    adds that directory and nothing else. *)
Lemma ensure_category_dir (cat : string) (w w1 : world) :
  plain cat → prefixes_dir (fs w) O → C (O ++ [cat]) →
  ensure_dir (join out cat) w = Ok tt w1 →
  extends C L (fs w) (fs w1).
Proof.
  intros Hcat HO HC Hm k. unfold ensure_dir, OS.makedirs in Hm.
  destruct (bool_decide (join out cat = "")); [done|].
  destruct (OS.mkdirs [] (resolve (join out cat)) (fs w))
    as [[e|[]] F'] eqn:Hmk; [done|]. injection Hm as <-. simpl.
  destruct (mkdirs_lookup _ _ _ _ _ k Hmk) as [|(Hk & Hk' & m & Hm & ->)];
    [by left|].
  destruct (decide (OS.anchor (take m (resolve (join out cat))) = true))
    as [Ha|Ha].
  { left. by eapply mkdirs_anchor. }
  right. split; [done|]. left. split; [done|].
  rewrite (resolve_join _ _ Hcat) in *. simpl in *.
  destruct (decide (m ≤ length O)) as [Hle|Hgt].
  - exfalso. rewrite take_app_le in Hk, Ha by done.
    specialize (HO m). unfold OS.node_at in HO.
    destruct (OS.anchor (take m O)); [done|]. congruence.
  - rewrite take_ge; [done|]. rewrite length_app. simpl. lia.
Qed.

Lemma prefixes_dir_extends (F G : gmap (list string) node)
    (k : list string) :
  extends C L F G → prefixes_dir F k → prefixes_dir G k.
Proof. intros H Hk m. by eapply node_at_extends. Qed.

Lemma prefixes_dir_move_file (F : gmap (list string) node)
    (a b k : list string) (c : content) :
  F !! a = Some (File c) → F !! b = None →
  prefixes_dir F k → prefixes_dir (<[b := File c]> (delete a F)) k.
Proof. intros Ha Hb Hk m. by apply node_at_move_file. Qed.

End organize_facts.

Section organize_loop.
Context (source out : string) (C : list string → Prop).
Local Abbreviation L := (resolve out ++ [LOG_FILENAME]).
Local Abbreviation D := (resolve source).
Local Abbreviation O := (resolve out).

(** The scan: what it records, how many files it fails on, and, when it
    fails on none, the moves it makes. *)
Lemma organize_files_moves (names : list string) :
  ∀ (st : scan) (w : world) (st' : scan) (w' : world),
    NoDup names →
    (∀ n, n ∈ names → plain n ∧ is_Some (fs w !! (D ++ [n]))) →
    prefixes_dir (fs w) D → prefixes_dir (fs w) O →
    fs w !! L = None →
    (∀ n c, n ∈ names → fs w !! (D ++ [n]) = Some (File c) →
            C (O ++ [category_of n]) ∧ ¬ C (D ++ [n])) →
    organize_files source out false names st w = Ok st' w' →
    ∃ new,
      moved_entries st' = moved_entries st ++ new ∧
      fs w' !! L = None ∧ denied w' = denied w ∧
      prefixes_dir (fs w') O ∧
      skipped st ≤ skipped st' ∧
      length new + (skipped st' - skipped st) =
        length (filter (λ n, regular w source n) names) ∧
      (skipped st' = skipped st →
       moves source out C (denied w) (fs w) new (fs w')).
Proof.
  induction names as [|n names IH];
    intros st w st' w' Hnd Hnames HD HO HL HC; simpl.
  { intros [= <- <-]. exists []. rewrite app_nil_r. split_and!; try done.
    - simpl. lia.
    - intros _. apply moves_nil, extends_refl. }
  apply NoDup_cons in Hnd as [Hnin Hnd].
  destruct (Hnames n) as [Hn [x Hx]]; [by left|].
  unfold bind at 1.
  destruct (organize_file source out false n st w) as [st1 wa|] eqn:Hstep;
    [|done].
  intros Hrest. destruct x as [c|].
  2: { (* a directory: passed over *)
    rewrite organize_file_dir in Hstep by done. injection Hstep as <- <-.
    destruct (IH st w st' w' Hnd) as (new & ? & ? & ? & ? & ? & ? & ?);
      try done.
    { intros m Hm. apply Hnames. by right. }
    { intros m c Hm. apply HC. by right. }
    exists new. split_and!; try done.
    rewrite filter_cons, (regular_dir source w n) by done. done. }
  destruct (HC n c) as [HCcat HCsrc]; [by left | done |].
  destruct (category_of_plain n) as [Hcat Hcatlog].
  destruct (organize_file_regular _ _ _ _ _ _ _ _ Hn Hx Hstep)
    as (w1 & cand & Hm & Hc & Hfree & Hden & Hbr).
  pose proof (ensure_category_dir out C _ _ _ Hcat HO HCcat Hm) as Hext.
  assert (fs w1 !! (D ++ [n]) = Some (File c)) as Hx1
    by (by eapply extends_Some).
  assert (fs w1 !! L = None) as HL1.
  { destruct (Hext L) as [->|[_ [[_ HCL]|_]]]; try done.
    - destruct (makedirs_inv _ _ _ w1 Hm (or_introl eq_refl))
        as (_ & _ & _ & Hk).
      destruct (Hk L) as [->|(_ & Hdir & m & _ & E)]; [done|].
      exfalso. rewrite (resolve_join _ _ Hcat) in E.
      destruct (decide (m ≤ length O)) as [Hle|Hgt].
      + apply (f_equal length) in E.
        rewrite length_take, !length_app in E. simpl in E. lia.
      + rewrite take_ge in E by (rewrite length_app; simpl; lia).
        apply app_inv_head in E. congruence.
    - destruct (makedirs_inv _ _ _ w1 Hm (or_introl eq_refl))
        as (_ & _ & _ & Hk).
      destruct (Hk L) as [->|(_ & Hdir & m & _ & E)]; [done|].
      exfalso. rewrite (resolve_join _ _ Hcat) in E.
      destruct (decide (m ≤ length O)) as [Hle|Hgt].
      + apply (f_equal length) in E.
        rewrite length_take, !length_app in E. simpl in E. lia.
      + rewrite take_ge in E by (rewrite length_app; simpl; lia).
        apply app_inv_head in E. congruence. }
  assert (∀ m, m ∈ names → fs w1 !! (D ++ [m]) = fs w !! (D ++ [m]))
    as Hkeep1.
  { intros m Hm'. destruct (Hnames m) as [_ [y Hy]]; [by right|].
    rewrite Hy. by eapply extends_Some. }
  assert (∀ m, m ∈ names → D ++ [m] ≠ D ++ [n]) as Hsrcne.
  { intros m Hm' E%app_inv_head. congruence. }
  assert (∀ m, m ∈ names → fs wa !! (D ++ [m]) = fs w !! (D ++ [m]))
    as Hkeep.
  { intros m Hm'. rewrite <-(Hkeep1 m Hm').
    destruct Hbr as [[_ ->]|(_ & -> & _)]; [done|].
    destruct (Hnames m) as [_ [y Hy]]; [by right|].
    rewrite <-(Hkeep1 m Hm') in Hy.
    rewrite lookup_insert_ne by congruence.
    rewrite lookup_delete_ne; [done|]. intros E. by apply (Hsrcne m). }
  assert (prefixes_dir (fs w1) D) as HD1
    by (by eapply prefixes_dir_extends).
  assert (prefixes_dir (fs w1) O) as HO1
    by (by eapply prefixes_dir_extends).
  assert (resolve out ++ [category_of n; cand] ≠ L) as HdestL.
  { intros E%app_inv_head. discriminate. }
  assert (prefixes_dir (fs wa) D ∧ prefixes_dir (fs wa) O ∧
          fs wa !! L = None) as (HDa & HOa & HLa).
  { destruct Hbr as [[_ ->]|(_ & -> & _)]; [done|]. split_and!.
    - by apply prefixes_dir_move_file.
    - by apply prefixes_dir_move_file.
    - rewrite lookup_insert_ne, lookup_delete_ne; [done| |done]. congruence. }
  destruct (IH st1 wa st' w' Hnd) as (new & Hnew & HL' & Hden' & HO' & Hle
    & Hcount & Hmoves); try done.
  { intros m Hm'. destruct (Hnames m) as [? ?]; [by right|].
    split; [done|]. by rewrite Hkeep. }
  { intros m c' Hm'. rewrite Hkeep by done. apply HC. by right. }
  assert (filter (λ m, regular wa source m) names =
          filter (λ m, regular w source m) names) as Hfilter.
  { apply filter_ext_elem. intros m Hm'.
    destruct (Hnames m) as [? _]; [by right|].
    apply regular_lookup; [done | by apply Hkeep]. }
  rewrite Hfilter in Hcount.
  rewrite filter_cons, (regular_file source w n c) by done. simpl.
  destruct Hbr as [[-> Hfs]|(-> & Hfs & Hd1 & Hd2)]; simpl in *.
  - exists new. split_and!; try done; try lia. congruence.
  - exists (move_record (pretty (clock w)) (join source n)
              (join (join out (category_of n)) cand) :: new).
    split_and!; try done; try lia.
    + by rewrite Hnew, <-(assoc_L (++)).
    + congruence.
    + simpl. lia.
    + intros Hsk. rewrite Hden, Hfs in Hmoves.
      eapply moves_cons; try done.
      * intros E. rewrite E in Hx1. destruct (Hext L) as [E'|[_ ?]];
          congruence.
      * by apply Hmoves.
Qed.

End organize_loop.

Section round_trip.

Lemma wf_prefixes_dir (F : gmap (list string) node) (k : list string) :
  wf_tree F → OS.node_at F k = Some Dir → prefixes_dir F k.
Proof.
  intros Hwf. induction k as [|n k IH] using rev_ind; intros Hk m.
  { by rewrite take_nil. }
  destruct (decide (m ≤ length k)) as [Hle|Hgt].
  - rewrite take_app_le by done. apply IH.
    destruct (node_at_cases F (k ++ [n])) as [E|E].
    + unfold OS.node_at, OS.anchor in Hk |- *.
      destruct (bool_decide (k ++ [n] = [])) eqn:E1.
      { apply bool_decide_eq_true in E1. by destruct k. }
      destruct (bool_decide (k ++ [n] = ["/"])) eqn:E2.
      { apply bool_decide_eq_true in E2.
        destruct k as [|? [|]]; simplify_eq/=. done. }
      simpl in Hk. apply Hwf with n. by rewrite Hk.
    + apply Hwf with n. rewrite <-E, Hk. eauto.
  - rewrite take_ge; [done|]. rewrite length_app. simpl. lia.
Qed.

Lemma mkdirs_node_at (pre rest : list string)
    (F F' : gmap (list string) node) (r : exn + unit) (k : list string) :
  OS.mkdirs pre rest F = (r, F') →
  OS.node_at F k = Some Dir → OS.node_at F' k = Some Dir.
Proof.
  intros Hm. unfold OS.node_at. destruct (OS.anchor k); [done|].
  intros Hk. destruct (mkdirs_lookup _ _ _ _ _ k Hm) as [->|[? _]];
    congruence.
Qed.

Lemma mkdirs_prefixes (pre rest : list string)
    (F F' : gmap (list string) node) :
  OS.mkdirs pre rest F = (inr tt, F') →
  ∀ m, 0 < m ≤ length rest → OS.node_at F' (pre ++ take m rest) = Some Dir.
Proof.
  revert pre F. induction rest as [|c rest IH]; intros pre F Hm m Hlen;
    simpl in *; [lia|].
  destruct m as [|m]; [lia|]. simpl.
  rewrite (assoc_L (++) pre [c] (take m rest) : pre ++ c :: take m rest = _).
  assert (∃ F1, OS.mkdirs (pre ++ [c]) rest F1 = (inr tt, F') ∧
                OS.node_at F1 (pre ++ [c]) = Some Dir) as (F1 & Hm1 & Hq).
  { destruct (OS.node_at F (pre ++ [c])) as [[?|]|] eqn:Hq; [done|..].
    - by exists F.
    - exists (<[pre ++ [c] := Dir]> F). split; [done|].
      unfold OS.node_at. rewrite lookup_insert_eq. by case_match. }
  destruct m as [|m].
  - rewrite take_0, app_nil_r. by eapply mkdirs_node_at.
  - apply (IH _ _ Hm1). lia.
Qed.

Lemma makedirs_prefixes_dir (p : string) (w w0 : world) :
  OS.makedirs p w = Ok tt w0 → prefixes_dir (fs w0) (resolve p).
Proof.
  unfold OS.makedirs. destruct (bool_decide (p = "")); [done|].
  destruct (OS.mkdirs [] (resolve p) (fs w)) as [[e|[]] F'] eqn:Hm; [done|].
  intros [= <-] m. simpl.
  destruct (decide (m = 0)) as [->|Hm0]; [by rewrite take_0|].
  destruct (decide (m ≤ length (resolve p))) as [Hle|Hgt].
  - apply (mkdirs_prefixes _ _ _ _ Hm m). lia.
  - rewrite take_ge by lia.
    destruct (decide (resolve p = [])) as [->|Hne]; [done|].
    rewrite <-(firstn_all (resolve p)).
    apply (mkdirs_prefixes _ _ _ _ Hm (length (resolve p))).
    destruct (resolve p); simpl in *; [done | lia].
Qed.

Lemma prefixes_dir_dirs_added (F G : gmap (list string) node)
    (k : list string) :
  dirs_added F G → prefixes_dir F k → prefixes_dir G k.
Proof.
  intros H Hk m. specialize (Hk m). unfold OS.node_at in *.
  destruct (OS.anchor (take m k)); [done|].
  destruct (H (take m k)) as [->|[? _]]; congruence.
Qed.

Lemma print_counts_same (counts : list (string * nat)) (w : world) :
  ∃ w', print_counts counts w = Ok tt w' ∧ fs w' = fs w ∧
        denied w' = denied w.
Proof.
  revert w. induction counts as [|[cat cnt] counts IH]; intros w; simpl.
  { by exists w. }
  unfold bind, OS.print. simpl.
  destruct (IH (World (fs w) (denied w)
                  (console w ++ [cat +:+ ": " +:+ pretty cnt]) (clock w)))
    as (w' & -> & E & E'). by exists w'.
Qed.

End round_trip.

Lemma dirs_added_extends (C : list string → Prop) (L : list string)
    (F G H : gmap (list string) node) :
  dirs_added F G → extends C L G H → F !! L = None → H !! L = None →
  dirs_added F H.
Proof.
  intros HFG HGH HF HH k.
  destruct (HFG k) as [E0|[E0 E0']], (HGH k) as [E|[E [[E' _]|E']]].
  - left. congruence.
  - right. split; congruence.
  - subst k. left. congruence.
  - right. split; congruence.
  - congruence.
  - congruence.
Qed.

(** X27. What does hold of the round trip: in a well-formed tree with no
    log in the output folder, when a real run of [organize] on a source
    directory moves every regular file it scans, and no scanned regular
    file has the path of a category folder of the run, then [undo_moves]
    returns, every file and directory of the tree before [organize] is
    back in place with its content, the log file is gone, and the only
    additions are directories. *)
Theorem organize_then_undo_restores (listing : list string)
    (source out : string) (w w0 w1 : world) (entries : list json) :
  wf_tree (fs w) →
  OS.isdir w source = true →
  fs w !! (resolve out ++ [LOG_FILENAME]) = None →
  ensure_dir out w = Ok tt w0 →
  OS.is_listing w0 source listing →
  (∀ n n', n ∈ listing → n' ∈ listing →
     regular w0 source n = true → regular w0 source n' = true →
     resolve source ++ [n] ≠ resolve out ++ [category_of n']) →
  organize listing source out false w = Ok entries w1 →
  length entries = length (filter (λ n, regular w0 source n) listing) →
  ∃ w2,
    undo_moves out w1 = Ok tt w2 ∧
    dirs_added (fs w) (fs w2) ∧
    fs w2 !! (resolve out ++ [LOG_FILENAME]) = None.
Proof.
  intros Hwf Hsrc HL Hm0 [Hnd Hlist] Hcoll Hrun Hcount.
  set (L := resolve out ++ [LOG_FILENAME]) in *.
  set (C := λ k, ∃ n, n ∈ listing ∧ regular w0 source n = true ∧
                      k = resolve out ++ [category_of n]).
  assert (source ≠ "") as Hs.
  { intros ->. by unfold OS.isdir in Hsrc. }
  pose proof (makedirs_dirs_added _ _ w0 _ Hm0 (or_introl eq_refl)) as Hadd0.
  destruct (makedirs_inv _ _ _ w0 Hm0 (or_introl eq_refl))
    as (Hden0 & _ & _ & _).
  assert (prefixes_dir (fs w0) (resolve source)) as HD0.
  { eapply prefixes_dir_dirs_added; [done|].
    apply wf_prefixes_dir; [done | by apply isdir_node]. }
  pose proof (makedirs_prefixes_dir _ _ _ Hm0) as HO0.
  assert (fs w0 !! L = None) as HL0.
  { unfold L. by rewrite (makedirs_below _ _ _ w0 _ Hm0 (or_introl eq_refl)). }
  assert (OS.isdir w0 source = true) as Hsrc0.
  { unfold OS.isdir in *. apply andb_true_iff in Hsrc as [-> Hd]. simpl.
    specialize (HD0 (length (resolve source))).
    rewrite firstn_all in HD0. by rewrite HD0. }
  (* the run of [organize] *)
  unfold organize, bind at 1, path_exists in Hrun.
  assert (OS.exists_ w source = true) as Hex.
  { unfold OS.isdir, OS.exists_ in *.
    apply andb_true_iff in Hsrc as [-> Hd]. simpl.
    apply bool_decide_eq_true.
    by destruct (OS.node_at (fs w) (resolve source)) as [[]|]. }
  rewrite Hex in Hrun. simpl in Hrun. unfold bind at 1 in Hrun. rewrite Hm0 in Hrun.
  unfold bind at 1, OS.listdir in Hrun. rewrite Hsrc0 in Hrun.
  unfold bind at 1 in Hrun.
  destruct (organize_files source out false listing (Scan [] [] 0 0) w0)
    as [st wl|] eqn:Hloop; [|done].
  destruct (organize_files_moves source out C listing
              (Scan [] [] 0 0) w0 st wl Hnd)
    as (new & Hnew & HLl & Hdenl & HOl & _ & Hcnt & Hmoves); try done.
  { intros n Hn. by apply Hlist. }
  { intros n c Hn Hf. pose proof (proj1 (Hlist n) Hn) as [Hpl _].
    pose proof (regular_file source w0 n c Hpl Hf) as Hreg. split.
    - by exists n.
    - intros (n' & Hn' & Hreg' & E).
      exact (Hcoll n n' Hn Hn' Hreg Hreg' E). }
  simpl in Hnew. subst new. fold L in HLl.
  unfold bind at 1, OS.print at 1 in Hrun. simpl in Hrun.
  unfold bind at 1 in Hrun.
  destruct (print_counts_same (counts st)
              (World (fs wl) (denied wl)
                 (console wl ++ [newline +:+ "--- summary ---"]) (clock wl)))
    as (wp & Hp & Hfsp & Hdenp). rewrite Hp in Hrun. simpl in *.
  unfold bind at 1, OS.print at 1 in Hrun. simpl in Hrun.
  unfold bind at 1, OS.print at 1 in Hrun. simpl in Hrun.
  unfold bind at 1 in Hrun.
  assert (entries = moved_entries st) as ->.
  { destruct (moved_entries st); simpl in Hrun.
    - unfold OS.print, ret in Hrun. by injection Hrun as <- _.
    - unfold bind at 1 in Hrun.
      destruct (write_log _ _ _) as [[] ?|]; [|done].
      unfold bind, OS.print, ret in Hrun. by injection Hrun as <- _. }
  assert (skipped st = 0) as Hsk by lia.
  specialize (Hmoves Hsk). rewrite Hden0 in Hmoves.
  (* the run of [undo_moves] *)
  unfold undo_moves, bind at 1. rewrite load_log_eq. unfold log_key. fold L.
  destruct (moved_entries st) as [|e es] eqn:Hes.
  - (* nothing was moved: no log, nothing to undo *)
    simpl in Hrun. unfold OS.print, ret in Hrun. injection Hrun as <-.
    simpl. rewrite Hfsp, HLl. simpl. unfold OS.print. eexists.
    split; [done|]. simpl. split; [|done].
    inversion Hmoves as [F F' Hext|]; subst.
    by eapply dirs_added_extends.
  - (* the log holds the records of the run *)
    unfold bind at 1 in Hrun. rewrite write_log_eq in Hrun.
    rewrite ensure_dir_noop in Hrun.
    2: { intros ->. by unfold ensure_dir, OS.makedirs in Hm0. }
    2: { simpl. by rewrite Hfsp. }
    simpl in Hrun. unfold log_key in Hrun. fold L in Hrun.
    rewrite Hfsp, HLl in Hrun.
    simpl in Hrun. unfold bind, OS.print, ret in Hrun. simpl in Hrun.
    injection Hrun as <-. simpl. rewrite lookup_insert_eq. simpl.
    unfold bind at 1.
    match goal with |- context [undo_entries _ _ ?g] => set (g0 := g) end.
    destruct (undo_entries_moves source out C (denied w) _ _ _ Hs Hmoves
                g0 []) as (g' & Hu & Hext & Hden' & HLg).
    { intros k. simpl. destruct (decide (k = L)) as [->|Hk].
      - right. split; [done | by right].
      - left. by rewrite lookup_insert_ne. }
    { simpl. by rewrite Hdenp, Hdenl. }
    rewrite Hu. simpl in HLg.
    rewrite lookup_insert_eq in HLg. fold L in HLg.
    unfold try_except, bind, OS.remove. rewrite log_path_nonempty.
    rewrite log_path_node. unfold log_key. fold L. rewrite HLg.
    unfold OS.print. simpl. eexists. split; [done|]. simpl.
    rewrite (resolve_join _ _ plain_LOG_FILENAME). fold L.
    split; [|by rewrite lookup_delete_eq].
    eapply (dirs_added_extends C L); [done| |done|by rewrite lookup_delete_eq].
    intros k. destruct (decide (k = L)) as [->|Hk].
    { right. split; [done | by right]. }
    rewrite lookup_delete_ne by done. apply Hext.
Qed.

Lemma wf_tree_w_same : wf_tree (fs w_same).
Proof.
  intros k n [x Hx]. unfold w_same in Hx. cbn [fs] in Hx. in_tree Hx.
  all: destruct k as [|? [|? [|? ?]]]; simplify_eq/=; reflexivity.
Qed.

Lemma is_listing_w_same : OS.is_listing w_same "s" ["Images"; "a.jpg"].
Proof.
  split; [by apply (bool_decide_unpack _)|]. intros n. split.
  - intros Hn.
    repeat (apply elem_of_cons in Hn as [->|Hn];
            [by split; [split_and!|eexists]|]).
    by apply elem_of_nil in Hn.
  - intros [_ [x Hx]]. change (resolve "s") with ["s"] in Hx.
    unfold w_same in Hx. cbn [fs] in Hx. in_tree Hx.
    all: simplify_eq/=; try by apply (bool_decide_unpack _).
Qed.

(** C3, on the code: organizing the folder [s] in place moves the file
    [Images] to [s/Others/Images] and then makes the category folder
    [s/Images] for [a.jpg]; both files are moved, no log was there before.
    [undo_moves] then moves [s/Others/Images] into the folder [s/Images]
    ([shutil.move] at line 99 moves into a directory), prints [Restored],
    counts no failure and removes the log, although the file that was at
    [s/Images] is now at [s/Images/Images]: the state before [organize]
    is not restored, against the docstring of [undo_moves]. *)
Theorem organize_then_undo_misplaces :
  wf_tree (fs w_same) ∧
  fs w_same !! ["s"; "organize_log.json"] = None ∧
  ensure_dir "s" w_same = Ok tt w_same ∧
  OS.is_listing w_same "s" ["Images"; "a.jpg"] ∧
  ∃ entries w1 w2,
    organize ["Images"; "a.jpg"] "s" "s" false w_same = Ok entries w1 ∧
    entries = [ move_record "0" "s/Images" "s/Others/Images";
                move_record "1" "s/a.jpg" "s/Images/a.jpg" ] ∧
    undo_moves "s" w1 = Ok tt w2 ∧
    console w2 =
      console w1 ++ [ "Restored: s/Images/a.jpg -> s/a.jpg";
                      "Restored: s/Others/Images -> s/Images";
                      "Undo complete. Log removed." ] ∧
    fs w2 !! ["s"; "organize_log.json"] = None ∧
    fs w_same !! ["s"; "Images"] = Some (File (Bytes "x")) ∧
    fs w2 !! ["s"; "Images"] = Some Dir ∧
    fs w2 !! ["s"; "Images"; "Images"] = Some (File (Bytes "x")) ∧
    ¬ dirs_added (fs w_same) (fs w2).
Proof.
  split; [apply wf_tree_w_same|]. split; [done|]. split; [by vm_compute|].
  split; [apply is_listing_w_same|].
  eexists _, _, _. split; [by vm_compute|]. split; [done|].
  split; [by vm_compute|]. split; [by vm_compute|].
  split; [by vm_compute|]. split; [by vm_compute|].
  split; [by vm_compute|]. split; [by vm_compute|].
  intros H. specialize (H ["s"; "Images"]). vm_compute in H.
  by destruct H as [|[]].
Qed.

Lemma wf_tree_w_inbox : wf_tree (fs w_inbox).
Proof.
  intros k n [x Hx]. unfold w_inbox in Hx. cbn [fs] in Hx. in_tree Hx.
  all: destruct k as [|? [|? [|? ?]]]; simplify_eq/=; reflexivity.
Qed.

Lemma is_listing_w_inbox :
  OS.is_listing (world_of (ensure_dir "out" w_inbox)) "inbox"
    ["a.txt"; "data.xyz"].
Proof.
  split; [by apply (bool_decide_unpack _)|]. intros n. split.
  - intros Hn.
    repeat (apply elem_of_cons in Hn as [->|Hn];
            [by split; [split_and!|eexists]|]).
    by apply elem_of_nil in Hn.
  - intros [_ [x Hx]]. change (resolve "inbox") with ["inbox"] in Hx.
    destruct (makedirs_inv "out" w_inbox _
                (world_of (ensure_dir "out" w_inbox)) eq_refl)
      as (_ & _ & _ & Hk); [by left|].
    destruct (Hk (["inbox"] ++ [n])) as [E|(_ & _ & m & _ & Hm)].
    + rewrite E in Hx. unfold w_inbox in Hx. cbn [fs] in Hx. in_tree Hx.
      all: simplify_eq/=; try by apply (bool_decide_unpack _).
    + change (resolve "out") with ["out"] in Hm.
      by destruct m as [|[|m]].
Qed.

Lemma organize_then_undo_restores_witness :
  ∃ w2,
    undo_moves "out"
      (world_of (organize ["a.txt"; "data.xyz"] "inbox" "out" false w_inbox))
      = Ok tt w2 ∧
    dirs_added (fs w_inbox) (fs w2) ∧
    fs w2 !! (resolve "out" ++ [LOG_FILENAME]) = None.
Proof.
  apply (organize_then_undo_restores ["a.txt"; "data.xyz"] "inbox" "out"
           w_inbox (world_of (ensure_dir "out" w_inbox))
           (world_of (organize ["a.txt"; "data.xyz"] "inbox" "out" false
                        w_inbox))
           (value_of (organize ["a.txt"; "data.xyz"] "inbox" "out" false
                        w_inbox) [])).
  - apply wf_tree_w_inbox.
  - reflexivity.
  - reflexivity.
  - by vm_compute.
  - apply is_listing_w_inbox.
  - intros n n' _ _ _ _ E. apply (f_equal head) in E. simpl in E.
    discriminate.
  - by vm_compute.
  - by vm_compute.
Defined.

Lemma scanned_file_goes_to_its_category_witness :
  let r := organize_file "inbox" "out" false "PHOTO.JPG" (Scan [] [] 0 0)
             w_photo in
  default "Others"
    (get_category_for_extension (lower (splitext "PHOTO.JPG").2)) =
    "Images" ∧
  ∃ name,
    fs (world_of r) !! (resolve "out" ++ ["Images"; name]) =
      Some (File (Bytes "P")) ∧
    fs w_photo !! (resolve "out" ++ ["Images"; name]) = None ∧
    resolve (join (join "out" "Images") name) =
      resolve "out" ++ ["Images"; name] ∧
    moved_entries (value_of r (Scan [] [] 0 0)) =
      [] ++ [move_record (pretty (clock w_photo)) (join "inbox" "PHOTO.JPG")
               (join (join "out" "Images") name)].
Proof.
  apply (scanned_file_goes_to_its_category "inbox" "out" "PHOTO.JPG" "Images"
           (Scan [] [] 0 0) _ w_photo _ (Bytes "P")).
  - by split_and!.
  - reflexivity.
  - left. exists [".jpg"; ".jpeg"; ".png"; ".gif"; ".bmp"; ".webp"].
    split; [by left|by left].
  - by vm_compute.
  - reflexivity.
Defined.

(** ** Further properties *)

(** *** [ensure_dir] *)

Lemma app_snoc_cons {A} (pre : list A) (c : A) (l : list A) :
  pre ++ c :: l = (pre ++ [c]) ++ l.
Proof. by rewrite <- (assoc_L _). Qed.

Lemma mkdirs_ok_iff (pre rest : list string) (F : gmap (list string) node) :
  (∃ F', OS.mkdirs pre rest F = (inr tt, F')) ↔
  ∀ m, 0 < m ≤ length rest →
       OS.is_file (OS.node_at F (pre ++ take m rest)) = false.
Proof.
  revert pre F. induction rest as [|c rest IH]; intros pre F; simpl.
  { split; [intros _ m; lia | eauto]. }
  assert (Hstep : ∀ G,
    (∀ m, 0 < m ≤ length rest →
       OS.is_file (OS.node_at G ((pre ++ [c]) ++ take m rest)) = false) ↔
    (∀ m, 1 < m ≤ S (length rest) →
       OS.is_file (OS.node_at G (pre ++ take m (c :: rest))) = false)).
  { intros G. split; intros H m Hm.
    - destruct m as [|m]; [lia|]. simpl. rewrite app_snoc_cons. apply H. lia.
    - specialize (H (S m)). simpl in H. rewrite app_snoc_cons in H.
      apply H. lia. }
  destruct (OS.node_at F (pre ++ [c])) as [[c0|]|] eqn:Hq.
  - split; [intros [F' HF']; discriminate|].
    intros H. specialize (H 1). simpl in H. rewrite take_0, Hq in H.
    discriminate H. lia.
  - rewrite IH, Hstep. split; intros H m Hm.
    + destruct (decide (m = 1)) as [->|]; [|apply H; lia].
      simpl. by rewrite take_0, Hq.
    + apply H. lia.
  - rewrite IH, Hstep. split; intros H m Hm.
    + destruct (decide (m = 1)) as [->|].
      { simpl. by rewrite take_0, Hq. }
      destruct m as [|m]; [lia|]. simpl.
      specialize (H (S m)). simpl in H.
      rewrite node_at_insert_ne in H; [apply H; lia|].
      rewrite (app_snoc_cons pre c (take m rest)). intros Heq.
      apply (f_equal length) in Heq. rewrite !length_app, length_take in Heq.
      simpl in Heq. lia.
    + destruct m as [|m]; [lia|]. simpl.
      specialize (H (S m)). simpl in H.
      rewrite node_at_insert_ne; [apply H; lia|].
      rewrite (app_snoc_cons pre c (take m rest)). intros Heq.
      apply (f_equal length) in Heq. rewrite !length_app, length_take in Heq.
      simpl in Heq. lia.
Qed.

Lemma mkdirs_raises (pre rest : list string) (F F' : gmap (list string) node)
    (e : exn) :
  OS.mkdirs pre rest F = (inl e, F') →
  ∃ m c, 0 < m ≤ length rest ∧
    OS.node_at F (pre ++ take m rest) = Some (File c) ∧
    e = if bool_decide (m = length rest) then FileExistsError
        else NotADirectoryError.
Proof.
  revert pre F. induction rest as [|x rest IH]; intros pre F; simpl.
  { discriminate. }
  destruct (OS.node_at F (pre ++ [x])) as [[c0|]|] eqn:Hq.
  - intros [= <- <-]. exists 1, c0. cbn [firstn length]. rewrite take_0, Hq.
    split; [lia|]. split; [done|]. destruct rest; cbn [length].
    + by rewrite bool_decide_eq_true_2.
    + by rewrite bool_decide_eq_false_2 by lia.
  - intros (m & c & Hm & Hnode & ->)%IH. exists (S m), c.
    cbn [firstn length]. rewrite app_snoc_cons.
    split; [lia|]. split; [done|].
    repeat case_bool_decide; done || lia.
  - intros (m & c & Hm & Hnode & ->)%IH. exists (S m), c.
    cbn [firstn length]. rewrite app_snoc_cons. split; [lia|]. split.
    + rewrite node_at_insert_ne in Hnode; [done|]. intros Heq.
      apply (f_equal length) in Heq. rewrite !length_app, length_take in Heq.
      simpl in Heq. lia.
    + repeat case_bool_decide; done || lia.
Qed.

(** X1. [ensure_dir] that returns has made [path] a directory, with
    directories all the way down to it; it has added directories to the
    tree and changed nothing else, and it has printed nothing. *)
Theorem ensure_dir_creates (path : string) (w w1 : world) :
  ensure_dir path w = Ok tt w1 →
  OS.isdir w1 path = true ∧ prefixes_dir (fs w1) (resolve path) ∧
  dirs_added (fs w) (fs w1) ∧
  denied w1 = denied w ∧ console w1 = console w ∧ clock w1 = clock w.
Proof.
  intros Hrun. unfold ensure_dir in Hrun.
  split; [by eapply makedirs_isdir|].
  split; [by eapply makedirs_prefixes_dir|].
  split; [eapply makedirs_dirs_added; eauto|].
  edestruct (makedirs_inv path w _ w1 Hrun) as (? & ? & ? & _); eauto.
Qed.

Lemma ensure_dir_creates_witness :
  let w1 := world_of (ensure_dir "out/Images" w_inbox) in
  OS.isdir w1 "out/Images" = true ∧
  prefixes_dir (fs w1) (resolve "out/Images") ∧
  dirs_added (fs w_inbox) (fs w1) ∧
  denied w1 = denied w_inbox ∧ console w1 = console w_inbox ∧
  clock w1 = clock w_inbox.
Proof.
  apply (ensure_dir_creates "out/Images" w_inbox). reflexivity.
Defined.

(** X2. [ensure_dir] is idempotent: called again on a path it has just
    made, it returns and leaves the world as it is. *)
Theorem ensure_dir_idempotent (path : string) (w w1 : world) :
  ensure_dir path w = Ok tt w1 → ensure_dir path w1 = Ok tt w1.
Proof.
  intros Hrun. apply ensure_dir_noop.
  - intros ->. discriminate Hrun.
  - by eapply makedirs_prefixes_dir.
Qed.

Lemma ensure_dir_idempotent_witness :
  let w1 := world_of (ensure_dir "out/Images" w_inbox) in
  ensure_dir "out/Images" w1 = Ok tt w1.
Proof.
  apply (ensure_dir_idempotent "out/Images" w_inbox). reflexivity.
Defined.

(** X3. [ensure_dir] returns exactly when the path is not empty and no
    regular file lies at it or above it. *)
Theorem ensure_dir_succeeds_iff (path : string) (w : world) :
  (∃ w1, ensure_dir path w = Ok tt w1) ↔
  path ≠ "" ∧
  ∀ m, OS.is_file (OS.node_at (fs w) (take m (resolve path))) = false.
Proof.
  unfold ensure_dir, OS.makedirs. case_bool_decide as Hp.
  { split; [intros [w1 [=]]|intros [? _]; done]. }
  pose proof (mkdirs_ok_iff [] (resolve path) (fs w)) as Hiff. simpl in Hiff.
  split.
  - intros [w1 Hrun]. split; [done|]. intros m.
    destruct (OS.mkdirs [] (resolve path) (fs w)) as [[e|[]] F'] eqn:Hmk;
      [discriminate|].
    destruct (decide (0 < m ≤ length (resolve path))) as [Hm|Hm].
    + apply Hiff; eauto.
    + destruct m as [|m]; [done|].
      rewrite take_ge by lia.
      destruct (decide (resolve path = [])) as [->|Hne]; [done|].
      rewrite <- (firstn_all (resolve path)). apply Hiff; [eauto|].
      destruct (resolve path); [done|simpl; lia].
  - intros [_ Hfree].
    destruct (proj2 Hiff) as [F' ->]; [intros m _; apply Hfree|]. eauto.
Qed.

(** X4. When [ensure_dir] raises, the path is empty
    ([FileNotFoundError], nothing changed) or a regular file lies on it:
    at the path itself ([FileExistsError]) or above it
    ([NotADirectoryError]). The directories made before the failure stay;
    nothing else has changed. *)
Theorem ensure_dir_raises (path : string) (w w1 : world) (e : exn) :
  ensure_dir path w = Raise e w1 →
  dirs_added (fs w) (fs w1) ∧ console w1 = console w ∧
  ((path = "" ∧ e = FileNotFoundError ∧ w1 = w) ∨
   ∃ m c, 0 < m ≤ length (resolve path) ∧
     OS.node_at (fs w) (take m (resolve path)) = Some (File c) ∧
     e = if bool_decide (m = length (resolve path)) then FileExistsError
         else NotADirectoryError).
Proof.
  intros Hrun. unfold ensure_dir in Hrun.
  split; [eapply makedirs_dirs_added; eauto|].
  split; [edestruct (makedirs_inv path w _ w1 Hrun) as (? & ? & ? & _); eauto|].
  unfold OS.makedirs in Hrun. case_bool_decide as Hp.
  { injection Hrun as <- <-. by left. }
  right.
  destruct (OS.mkdirs [] (resolve path) (fs w)) as [[e'|[]] F'] eqn:Hmk;
    [|discriminate].
  injection Hrun as <- <-.
  apply mkdirs_raises in Hmk as (m & c & Hm & Hnode & He). eauto.
Qed.

Lemma ensure_dir_raises_witness :
  let r := ensure_dir "inbox/a.txt/sub" w_inbox in
  dirs_added (fs w_inbox) (fs (world_of r)) ∧
  console (world_of r) = console w_inbox ∧
  (("inbox/a.txt/sub" = "" ∧ NotADirectoryError = FileNotFoundError ∧
    world_of r = w_inbox) ∨
   ∃ m c, 0 < m ≤ length (resolve "inbox/a.txt/sub") ∧
     OS.node_at (fs w_inbox) (take m (resolve "inbox/a.txt/sub")) =
       Some (File c) ∧
     NotADirectoryError =
       if bool_decide (m = length (resolve "inbox/a.txt/sub"))
       then FileExistsError else NotADirectoryError).
Proof.
  apply (ensure_dir_raises "inbox/a.txt/sub" w_inbox). reflexivity.
Defined.

(** *** [get_category_for_extension] *)

(** X5. [get_category_for_extension] returns a category exactly for the
    extensions that [FILE_TYPES] lists under it, as spelled there: no
    extension is listed twice, so the order of the table does not
    matter. It returns [None] exactly for the extensions the table does
    not list. *)
Theorem get_category_for_extension_spec (ext : string) :
  (∀ cat, get_category_for_extension ext = Some cat ↔
          ∃ exts, (cat, exts) ∈ FILE_TYPES ∧ ext ∈ exts) ∧
  (get_category_for_extension ext = None ↔
   ∀ cat exts, (cat, exts) ∈ FILE_TYPES → ext ∉ exts).
Proof.
  assert (Hsome : ∀ cat, get_category_for_extension ext = Some cat ↔
                         ∃ exts, (cat, exts) ∈ FILE_TYPES ∧ ext ∈ exts).
  { intros cat. split; [apply category_scan_Some|].
    intros (exts & Hin & Hext). unfold FILE_TYPES in Hin.
    repeat (apply elem_of_cons in Hin as [Hin|Hin];
      [injection Hin as -> ->;
       repeat (apply elem_of_cons in Hext as [->|Hext]; [reflexivity|]);
       by apply elem_of_nil in Hext|]).
    by apply elem_of_nil in Hin. }
  split; [done|]. split.
  - intros Hnone cat exts Hin Hext.
    assert (get_category_for_extension ext = Some cat) as Hs
      by (apply Hsome; eauto).
    congruence.
  - intros Hfree.
    destruct (get_category_for_extension ext) as [cat|]; [|done].
    destruct (proj1 (Hsome cat) eq_refl) as (exts & Hin & Hext).
    by destruct (Hfree cat exts).
Qed.

(** *** [write_log] and [load_log] *)

Lemma log_key_not_prefix (output_folder : string) (m : nat) :
  take m (resolve output_folder) ≠ log_key output_folder.
Proof.
  unfold log_key. intros Heq. apply (f_equal length) in Heq.
  rewrite length_take, length_app in Heq. simpl in Heq. lia.
Qed.

Lemma write_log_inv (output_folder : string) (log_entries : list json)
    (w w1 : world) :
  write_log output_folder log_entries w = Ok tt w1 →
  ∃ w0, ensure_dir output_folder w = Ok tt w0 ∧
    OS.is_dir (fs w !! log_key output_folder) = false ∧
    w1 = set_fs (<[log_key output_folder :=
                    File (Json (JList (log_content
                                         (fs w !! log_key output_folder) ++
                                       log_entries)))]> (fs w0)) w0.
Proof.
  rewrite write_log_eq. destruct (ensure_dir output_folder w) as [[] w0|];
    [|discriminate].
  intros Hrun. exists w0. split; [done|].
  destruct (fs w !! log_key output_folder) as [[c|]|]; [| discriminate |];
    by injection Hrun as <-.
Qed.

(** X6. What [load_log] returns after a [write_log] that returned is
    what it returned before, followed by the new records. *)
Theorem write_log_then_load_log (output_folder : string)
    (old new_entries : list json) (w w1 : world) :
  load_log output_folder w = Ok old w →
  write_log output_folder new_entries w = Ok tt w1 →
  load_log output_folder w1 = Ok (old ++ new_entries) w1.
Proof.
  rewrite !load_log_eq. intros [= <-] (w0 & _ & _ & ->)%write_log_inv.
  simpl. by rewrite lookup_insert_eq.
Qed.

Lemma write_log_then_load_log_witness :
  let w1 := world_of (write_log "out" [e_b] (w_blocked [e_a])) in
  load_log "out" w1 = Ok ([e_a] ++ [e_b]) w1.
Proof.
  apply (write_log_then_load_log "out" [e_a] [e_b] (w_blocked [e_a]));
    reflexivity.
Defined.


(** X8. Two calls of [write_log] in a row store what one call with both
    lists of records stores. *)
Theorem write_log_twice (output_folder : string) (first second : list json)
    (w w1 : world) :
  write_log output_folder first w = Ok tt w1 →
  write_log output_folder second w1 =
  write_log output_folder (first ++ second) w.
Proof.
  intros Hfirst. pose proof Hfirst as (w0 & Hdir & Hnd & ->)%write_log_inv.
  rewrite (write_log_eq output_folder (first ++ second) w), Hdir.
  rewrite write_log_eq.
  assert (output_folder ≠ "") as Hne by (intros ->; discriminate Hdir).
  rewrite ensure_dir_noop; [|done|].
  - simpl. rewrite lookup_insert_eq. simpl. rewrite insert_insert_eq.
    destruct (fs w !! log_key output_folder) as [[c|]|]; [|done|];
      simpl; rewrite <- ?(assoc_L (++)); done.
  - intros m. simpl. rewrite node_at_insert_ne
      by (apply not_eq_sym, log_key_not_prefix).
    by eapply makedirs_prefixes_dir.
Qed.

Lemma write_log_twice_witness :
  write_log "out" [e_b] (world_of (write_log "out" [e_a] w_inbox)) =
  write_log "out" ([e_a] ++ [e_b]) w_inbox.
Proof.
  apply (write_log_twice "out" [e_a] [e_b] w_inbox). reflexivity.
Defined.

(** *** [undo_moves] *)

(** X9. With no log file, or one that is a directory, not JSON, not a
    JSON list or an empty list, [undo_moves] prints that there is nothing
    to undo and does nothing else. *)
Theorem undo_moves_nothing_to_undo (output_folder : string) (w : world) :
  (∀ entry log, fs w !! (resolve output_folder ++ [LOG_FILENAME]) ≠
                Some (File (Json (JList (entry :: log))))) →
  undo_moves output_folder w =
  Ok tt (World (fs w) (denied w)
           (console w ++ ["No log entries found to undo."]) (clock w)).
Proof.
  intros Hlog. unfold undo_moves, bind. rewrite load_log_eq.
  unfold log_key.
  destruct (fs w !! (resolve output_folder ++ [LOG_FILENAME]))
    as [[[s|[| | | |[|entry log]|]]|]|] eqn:HL; try reflexivity.
  by destruct (Hlog entry log).
Qed.

Lemma undo_moves_nothing_to_undo_witness :
  undo_moves "out" w_inbox =
  Ok tt (World (fs w_inbox) (denied w_inbox)
           (console w_inbox ++ ["No log entries found to undo."])
           (clock w_inbox)).
Proof.
  apply (undo_moves_nothing_to_undo "out" w_inbox). intros entry log.
  discriminate.
Defined.

Lemma undo_entry_record (ts src dest : string) (failed : list json) :
  src ≠ "" → dest ≠ "" →
  undo_entry (move_record ts src dest) failed =
  (let* present := path_exists dest in
   if present then
     ensure_dir (dirname src) >>
     try_except
       (OS.move dest src >>
        OS.print ("Restored: " +:+ dest +:+ " -> " +:+ src) >>
        ret failed)
       (λ e,
        OS.print ("Failed to restore " +:+ dest +:+ " -> " +:+
                  src +:+ ": " +:+ exn_text e) >>
        ret (failed ++ [move_record ts src dest]))
   else
     OS.print ("Skipped (missing destination): " +:+ dest) >>
     ret failed).
Proof.
  intros Hs Hd. unfold undo_entry. rewrite dict_get_src, dict_get_dest.
  unfold bind at 1 2, ret at 1 2. simpl.
  by rewrite !bool_decide_eq_false_2 by done.
Qed.

Lemma exists_fs (w w' : world) (p : string) :
  fs w' = fs w → OS.exists_ w' p = OS.exists_ w p.
Proof. unfold OS.exists_. by intros ->. Qed.

Lemma undo_entries_missing (entries failed : list json) (w0 : world) :
  Forall (λ e, ∃ ts src dest, e = move_record ts src dest ∧ src ≠ "" ∧
                 dest ≠ "" ∧ OS.exists_ w0 dest = false) entries →
  ∀ w, fs w = fs w0 →
  ∃ lines, length lines = length entries ∧
    undo_entries entries failed w =
    Ok failed (World (fs w) (denied w) (console w ++ lines) (clock w)).
Proof.
  induction 1 as [|e entries (ts & src & dest & -> & Hs & Hd & Hex) _ IH];
    intros w Hfs.
  { exists []. split; [done|]. simpl. unfold ret. rewrite app_nil_r.
    by destruct w. }
  simpl. unfold bind at 1. rewrite undo_entry_record by done.
  unfold bind at 1, path_exists. rewrite (exists_fs w0 w) by done.
  rewrite Hex. unfold bind at 1, OS.print, ret.
  destruct (IH (World (fs w) (denied w)
                  (console w ++ ["Skipped (missing destination): " +:+ dest])
                  (clock w)) Hfs) as (lines & Hlen & ->).
  exists (("Skipped (missing destination): " +:+ dest) :: lines).
  split; [simpl; lia|]. simpl. by rewrite <- (assoc_L (++)).
Qed.

(** X11. When every record of the log has non-empty [src] and [dest] and
    none of the destinations exists, [undo_moves] restores nothing, counts
    no failure, prints one line for each record and removes the log: no
    other entry of the tree changes. *)
Theorem undo_moves_missing_destinations (output_folder : string)
    (entry : json) (log : list json) (w : world) :
  fs w !! (resolve output_folder ++ [LOG_FILENAME]) =
    Some (File (Json (JList (entry :: log)))) →
  Forall (λ e, ∃ ts src dest, e = move_record ts src dest ∧ src ≠ "" ∧
                 dest ≠ "" ∧ OS.exists_ w dest = false) (entry :: log) →
  ∃ lines, length lines = length (entry :: log) ∧
    undo_moves output_folder w =
    Ok tt (World (delete (resolve output_folder ++ [LOG_FILENAME]) (fs w))
             (denied w)
             (console w ++ lines ++ ["Undo complete. Log removed."])
             (clock w)).
Proof.
  intros HL Hall. unfold undo_moves, bind at 1. rewrite load_log_eq.
  unfold log_key. rewrite HL. cbn [log_content].
  apply Forall_reverse in Hall.
  destruct (undo_entries_missing (reverse (entry :: log)) [] w Hall w eq_refl)
    as (lines & Hlen & Hrun).
  exists lines. split; [by rewrite Hlen, length_reverse|].
  unfold bind. rewrite Hrun. unfold try_except, OS.remove.
  rewrite log_path_nonempty. cbn [fs]. rewrite log_path_node.
  unfold log_key. rewrite HL. unfold OS.print, set_fs. cbn.
  rewrite resolve_join by apply plain_LOG_FILENAME.
  by rewrite <- (assoc_L (++)).
Qed.

Lemma undo_moves_missing_destinations_witness :
  let gone := move_record "t0" "inbox/c.txt" "out/Documents/c.txt" in
  ∃ lines, length lines = length [gone] ∧
    undo_moves "out" (w_blocked [gone]) =
    Ok tt
      (World (delete (resolve "out" ++ [LOG_FILENAME]) (fs (w_blocked [gone])))
         (denied (w_blocked [gone]))
         (console (w_blocked [gone]) ++ lines ++
          ["Undo complete. Log removed."])
         (clock (w_blocked [gone]))).
Proof.
  apply (undo_moves_missing_destinations "out"
           (move_record "t0" "inbox/c.txt" "out/Documents/c.txt") []
           (w_blocked [move_record "t0" "inbox/c.txt" "out/Documents/c.txt"])).
  - reflexivity.
  - apply Forall_singleton.
    by exists "t0", "inbox/c.txt", "out/Documents/c.txt".
Defined.

(** X12. A log whose last record is not a JSON object makes
    [undo_moves] raise [AttributeError] at once: nothing is restored,
    nothing is printed and the log stays. *)
Theorem undo_moves_non_object_record (output_folder : string)
    (log : list json) (v : json) (w : world) :
  fs w !! (resolve output_folder ++ [LOG_FILENAME]) =
    Some (File (Json (JList (log ++ [v])))) →
  (∀ items, v ≠ JDict items) →
  undo_moves output_folder w = Raise AttributeError w.
Proof.
  intros HL Hv. unfold undo_moves, bind at 1. rewrite load_log_eq.
  unfold log_key. rewrite HL. cbn [log_content].
  rewrite reverse_app. cbn [reverse rev_append app].
  destruct (log ++ [v]) eqn:Hlog; [by destruct log|].
  unfold bind at 1. cbn [undo_entries]. unfold bind at 1.
  destruct v; try reflexivity. by destruct (Hv items).
Qed.

Lemma undo_moves_non_object_record_witness :
  undo_moves "out" (w_blocked [e_a; JNum 7]) =
  Raise AttributeError (w_blocked [e_a; JNum 7]).
Proof.
  apply (undo_moves_non_object_record "out" [e_a] (JNum 7)
           (w_blocked [e_a; JNum 7])); [reflexivity|discriminate].
Defined.

Lemma makedirs_resolve (p q : string) :
  p ≠ "" → q ≠ "" → resolve p = resolve q → OS.makedirs p = OS.makedirs q.
Proof.
  intros Hp Hq Hr. unfold OS.makedirs. rewrite Hr.
  by rewrite !bool_decide_eq_false_2 by done.
Qed.

(** X13. One round of the undo loop on a record whose destination is a
    regular file: the folder of the original path is made again when it
    is gone, the file goes back to its original path, replacing a regular
    file that has appeared there, one line is printed and no failure is
    counted. *)
Theorem undo_entry_restores_file (folder name dest ts : string) (c : content)
    (failed : list json) (w w0 : world) :
  folder ≠ "" → plain name → dest ≠ "" →
  OS.node_at (fs w) (resolve dest) = Some (File c) →
  ensure_dir folder w = Ok tt w0 →
  OS.is_dir (fs w0 !! (resolve folder ++ [name])) = false →
  resolve dest ∉ denied w → resolve folder ++ [name] ∉ denied w →
  undo_entry (move_record ts (join folder name) dest) failed w =
  Ok failed
    (World (<[resolve folder ++ [name] := File c]>
              (delete (resolve dest) (fs w0)))
       (denied w)
       (console w ++ ["Restored: " +:+ dest +:+ " -> " +:+ join folder name])
       (clock w)).
Proof.
  intros Hf Hn Hd Hnode Hdir Hfree Hden1 Hden2.
  pose proof (plain_nonempty _ Hn) as Hn0.
  destruct (dirname_join folder name Hf Hn) as [Hdn0 Hdn].
  rewrite undo_entry_record by (done || by apply join_nonempty).
  unfold bind at 1, path_exists, OS.exists_. rewrite Hnode.
  rewrite bool_decide_eq_false_2 by done.
  rewrite bool_decide_eq_true_2 by eauto. cbn [negb andb].
  unfold bind at 1, ensure_dir. rewrite (makedirs_resolve _ folder) by done.
  unfold ensure_dir in Hdir. rewrite Hdir.
  destruct (makedirs_inv folder w _ w0 Hdir) as (Hden & Hcon & Hclk & _);
    [eauto|].
  assert (dirs_added (fs w) (fs w0)) as Hadd
    by (eapply makedirs_dirs_added; eauto).
  assert (OS.anchor (resolve dest) = false) as Hanc.
  { unfold OS.node_at in Hnode. by destruct (OS.anchor (resolve dest)). }
  assert (fs w0 !! resolve dest = Some (File c)) as Hsrc.
  { apply node_at_file in Hnode. destruct (Hadd (resolve dest)) as [->|[? _]];
      congruence. }
  assert (OS.node_at (fs w0) (resolve folder) = Some Dir) as Hpar
    by (by apply isdir_node, (makedirs_isdir folder w)).
  unfold try_except, bind at 1, OS.move, OS.isdir.
  rewrite resolve_join by done. rewrite node_at_snoc by done.
  rewrite Hfree, andb_false_r. cbn [andb].
  rewrite (bool_decide_eq_false_2 (dest = "")) by done.
  rewrite (bool_decide_eq_false_2 (join folder name = ""))
    by (by apply join_nonempty).
  cbn [orb]. rewrite Hanc, Hsrc, Hden.
  rewrite ?resolve_join by done.
  rewrite !bool_decide_eq_false_2 by done. cbn [orb].
  rewrite parent_snoc, Hpar. cbn [OS.is_dir negb].
  rewrite node_at_snoc by done.
  unfold bind, OS.print, ret, set_fs. cbn.
  rewrite Hcon, Hclk.
  rewrite ?Hden.
  by destruct (fs w0 !! (resolve folder ++ [name])) as [[?|]|].
Qed.

Lemma undo_entry_restores_file_witness :
  let w := World (list_to_map
                    [ (["out"], Dir); (["out"; "Documents"], Dir);
                      (["out"; "Documents"; "a.txt"], File (Bytes "A")) ])
                 ∅ [] 0 in
  undo_entry e_a [] w =
  Ok []
    (World (<[resolve "inbox" ++ ["a.txt"] := File (Bytes "A")]>
              (delete (resolve "out/Documents/a.txt")
                 (fs (world_of (ensure_dir "inbox" w)))))
       (denied w)
       (console w ++
        ["Restored: " +:+ "out/Documents/a.txt" +:+ " -> " +:+
         join "inbox" "a.txt"])
       (clock w)).
Proof.
  apply (undo_entry_restores_file "inbox" "a.txt" "out/Documents/a.txt" "t0"
           (Bytes "A") []).
  - done.
  - by split_and!.
  - done.
  - reflexivity.
  - reflexivity.
  - reflexivity.
  - apply not_elem_of_empty.
  - apply not_elem_of_empty.
Defined.

Lemma move_raise (src dst : string) (w w' : world) (e : exn) :
  OS.move src dst w = Raise e w' → w' = w.
Proof.
  unfold OS.move. intros H. repeat case_match; by simplify_eq.
Qed.

Lemma undo_entry_inv (entry : json) (failed failed' : list json)
    (w w' : world) :
  undo_entry entry failed w = Ok failed' w' →
  failed' = failed ∨
  (failed' = failed ++ [entry] ∧ dirs_added (fs w) (fs w') ∧
   ∃ line, console w' = console w ++ [line]).
Proof.
  unfold undo_entry. destruct entry as [| | | | |items]; try discriminate.
  unfold bind at 1 2, dict_get, ret at 1 2.
  destruct (_ || _); [intros [= <- <-]; by left|].
  destruct (default JNull _) as [| | |dest_s| |]; try discriminate.
  unfold bind at 1, path_exists.
  destruct (OS.exists_ w dest_s); [|intros [= <- <-]; by left].
  destruct (default JNull _) as [| | |src_s| |]; try discriminate.
  unfold bind at 1, ensure_dir.
  destruct (OS.makedirs (dirname src_s) w) as [[] w0|] eqn:Hdir;
    [|discriminate].
  unfold try_except, bind at 1.
  destruct (OS.move dest_s src_s w0) as [[] w1|e w1] eqn:Hmove.
  - intros [= <- <-]. by left.
  - apply move_raise in Hmove as ->. intros [= <- <-]. right.
    split; [done|]. cbn [fs console].
    destruct (makedirs_inv _ w _ w0 Hdir) as (_ & -> & _ & _); [eauto|].
    split; [eapply makedirs_dirs_added; eauto|eauto].
Qed.

(** X14. The failures that the undo loop collects are records of the
    list it walks, each at most once and in the order walked. *)
Theorem undo_entries_failed_sublist (entries failed failed' : list json)
    (w w' : world) :
  undo_entries entries failed w = Ok failed' w' →
  ∃ l, failed' = failed ++ l ∧ l `sublist_of` entries.
Proof.
  revert failed w. induction entries as [|entry entries IH];
    intros failed w; simpl.
  { intros [= <- <-]. exists []. by rewrite app_nil_r. }
  unfold bind at 1.
  destruct (undo_entry entry failed w) as [failed1 w1|] eqn:Hstep;
    [|discriminate].
  intros (l & -> & Hsub)%IH.
  apply undo_entry_inv in Hstep as [->|(-> & _)].
  - exists l. split; [done|]. by apply sublist_cons.
  - exists (entry :: l). split; [by rewrite <- (assoc_L (++))|].
    by apply sublist_skip.
Qed.

Lemma undo_entries_failed_sublist_witness :
  ∃ l, [e_b] = [] ++ l ∧ l `sublist_of` [e_b; e_a].
Proof.
  apply (undo_entries_failed_sublist [e_b; e_a] [] [e_b]
           (w_blocked [e_a; e_b])
           (world_of (undo_entries [e_b; e_a] [] (w_blocked [e_a; e_b])))).
  by vm_compute.
Defined.



Lemma undo_entry_skips_malformed_witness :
  undo_entry e_nosrc [e_b] w_inbox = Ok [e_b] w_inbox.
Proof.
  apply (undo_entry_skips_malformed
           [("timestamp", JStr "t0"); ("dest", JStr "out/Documents/a.txt")]
           [e_b] w_inbox).
  left. reflexivity.
Defined.

(** *** [organize] *)

(** One round of the scan of a real run, whatever the name. *)
Lemma organize_file_cases (source out n : string) (st st' : scan)
    (w w' : world) :
  organize_file source out false n st w = Ok st' w' →
  (OS.isdir w (join source n) = true ∧ st' = st ∧ w' = w) ∨
  (OS.isdir w (join source n) = false ∧
   ∃ w1 cand,
     ensure_dir (join out (category_of n)) w = Ok tt w1 ∧
     unique_dest_path (join out (category_of n)) n w1 =
       Ok (join (join out (category_of n)) cand) w1 ∧
     OS.exists_ w1 (join (join out (category_of n)) cand) = false ∧
     ((∃ e, OS.move (join source n) (join (join out (category_of n)) cand) w1
            = Raise e w1 ∧
        st' = Scan (moved_entries st) (counts st) (skipped st + 1)
                (total st + 1) ∧
        fs w' = fs w1) ∨
      (∃ w2, OS.move (join source n) (join (join out (category_of n)) cand) w1
             = Ok tt w2 ∧
         st' = Scan (moved_entries st ++
                       [move_record (pretty (clock w2)) (join source n)
                          (join (join out (category_of n)) cand)])
                 (counts_incr (category_of n) (counts st)) (skipped st)
                 (total st + 1) ∧
         fs w' = fs w2))).
Proof.
  unfold organize_file, bind at 1, path_isdir.
  destruct (OS.isdir w (join source n)) eqn:Hd.
  { intros [= <- <-]. by left. }
  intros Hrun. right. split; [done|]. revert Hrun.
  unfold bind at 1.
  destruct (ensure_dir (join out (category_of n)) w) as [[] w1|e w1] eqn:Hm;
    [|done].
  destruct (unique_dest_path_fuel_enough w1 (join out (category_of n)) n)
    as (cand & counter & _ & Hu & Hfree).
  unfold bind at 1. rewrite Hu. cbn match. unfold try_except, bind at 1.
  intros Hrun. exists w1, cand. split; [done|]. split; [done|].
  split; [done|].
  destruct (OS.move _ _ w1) as [[] w2|e w2] eqn:Hmove.
  - right. exists w2. split; [done|]. revert Hrun.
    unfold bind, OS.print, OS.now_isoformat, ret. cbn.
    by intros [= <- <-].
  - left. exists e. apply move_raise in Hmove as E. subst w2.
    split; [done|]. revert Hrun. unfold bind, OS.print, ret. cbn.
    by intros [= <- <-].
Qed.

Lemma counts_incr_sum (category : string) (counts : list (string * nat)) :
  sum_list (counts_incr category counts).*2 = sum_list counts.*2 + 1.
Proof.
  induction counts as [|[cat cnt] counts IH]; csimpl; [done|].
  case_bool_decide; csimpl; rewrite ?IH; lia.
Qed.

Lemma join_nonempty_l (a b : string) : a ≠ "" → join a b ≠ "".
Proof.
  intros Ha. unfold join. destruct (startswith_sep b) eqn:Hb.
  { by destruct b. }
  destruct (_ || _); by destruct a.
Qed.

(** The scan of a real run: the records it adds, in the order of the
    names, and its counters. *)
Lemma organize_files_inv (source out : string) (names : list string) :
  ∀ (st st' : scan) (w w' : world),
    organize_files source out false names st w = Ok st' w' →
    ∃ new moved,
      moved_entries st' = moved_entries st ++ new ∧
      moved `sublist_of` names ∧
      Forall2 (λ e n, ∃ ts cand,
                 e = move_record ts (join source n)
                       (join (join out (category_of n)) cand)) new moved ∧
      skipped st ≤ skipped st' ∧
      total st' = total st + length new + (skipped st' - skipped st) ∧
      total st' ≤ total st + length names ∧
      sum_list (counts st').*2 = sum_list (counts st).*2 + length new ∧
      (new = [] → dirs_added (fs w) (fs w')).
Proof.
  induction names as [|n names IH]; intros st st' w w'; simpl.
  { intros [= <- <-]. exists [], []. rewrite app_nil_r. simpl.
    split_and!; try done || lia. intros _. apply dirs_added_refl. }
  unfold bind at 1.
  destruct (organize_file source out false n st w) as [st1 w1|] eqn:Hstep;
    [|done].
  intros (new & moved & Hnew & Hsub & Hrec & Hsk & Htot & Hle & Hsum &
          Hdirs)%IH.
  apply organize_file_cases in Hstep
    as [(_ & -> & ->)|(_ & w0 & cand & Hdir & _ & _ &
                       [(e & _ & -> & Hfs)|(w2 & _ & -> & Hfs)])].
  - exists new, moved. split_and!; try done || lia. by apply sublist_cons.
  - simpl in *. exists new, moved. split_and!; try done || lia.
    { by apply sublist_cons. }
    intros Hnil. eapply dirs_added_trans; [|by apply Hdirs].
    rewrite Hfs. eapply makedirs_dirs_added; eauto.
  - simpl in *. eexists (_ :: new), (n :: moved). split_and!.
    + by rewrite Hnew, <- (assoc_L (++)).
    + by apply sublist_skip.
    + constructor; eauto.
    + done.
    + simpl. lia.
    + lia.
    + rewrite Hsum, counts_incr_sum. simpl. lia.
    + done.
Qed.

Lemma organize_inv (listing : list string) (source out : string)
    (w w' : world) (entries : list json) :
  organize listing source out false w = Ok entries w' →
  (OS.exists_ w source = false ∧ entries = [] ∧ fs w' = fs w) ∨
  (OS.exists_ w source = true ∧
   ∃ w0 st w1,
     ensure_dir out w = Ok tt w0 ∧ OS.isdir w0 source = true ∧
     organize_files source out false listing (Scan [] [] 0 0) w0 = Ok st w1 ∧
     entries = moved_entries st ∧
     ((entries = [] ∧ fs w' = fs w1) ∨
      (entries ≠ [] ∧ ∃ w2 w3,
         fs w2 = fs w1 ∧ write_log out entries w2 = Ok tt w3 ∧
         fs w' = fs w3))).
Proof.
  unfold organize, bind at 1, path_exists.
  destruct (OS.exists_ w source); simpl.
  2: { unfold bind, OS.print, ret. simpl. intros [= <- <-]. by left. }
  intros Hrun. right. split; [done|]. revert Hrun.
  unfold bind at 1.
  destruct (ensure_dir out w) as [[] w0|] eqn:Hm; [|done].
  unfold bind at 1, OS.listdir.
  destruct (OS.isdir w0 source) eqn:Hd; [|by destruct (OS.exists_ w0 source)].
  unfold bind at 1.
  destruct (organize_files source out false listing (Scan [] [] 0 0) w0)
    as [st w1|] eqn:Hl; [|done].
  unfold bind at 1, OS.print at 1. simpl. unfold bind at 1.
  destruct (print_counts_fs (counts st)
              (World (fs w1) (denied w1)
                 (console w1 ++ [newline +:+ "--- summary ---"]) (clock w1)))
    as (w2 & -> & E2). simpl in E2.
  unfold bind at 1, OS.print at 1. unfold bind at 1, OS.print at 1.
  unfold bind at 1.
  intros Hrun. exists w0, st, w1. split; [done|]. split; [done|].
  split; [done|].
  destruct (moved_entries st) as [|e l] eqn:Hmoved.
  - revert Hrun. unfold OS.print, bind, ret. cbn. intros [= <- <-].
    split; [done|]. by left.
  - revert Hrun. unfold bind at 1.
    match goal with |- context [write_log out (e :: l) ?w] =>
      set (w3 := w); destruct (write_log out (e :: l) w3) as [[] w4|] eqn:Hw
    end; [|done].
    unfold OS.print, bind, ret. cbn. intros [= <- <-].
    split; [done|]. right. split; [done|]. by exists w3, w4.
Qed.

Lemma organize_dry_run_dirs_added_witness :
  let r := organize ["a.txt"; "data.xyz"] "inbox" "out" true w_inbox in
  value_of r [e_a] = [] ∧ dirs_added (fs w_inbox) (fs (world_of r)).
Proof.
  apply (organize_dry_run_dirs_added ["a.txt"; "data.xyz"] "inbox" "out"
           w_inbox). by vm_compute.
Defined.

(** X17. A source that is a regular file: [organize] makes the output
    folder and then raises [NotADirectoryError] from the listing. *)
Theorem organize_source_not_directory (listing : list string)
    (source out : string) (dry_run : bool) (c : content) (w w0 : world) :
  source ≠ "" →
  OS.node_at (fs w) (resolve source) = Some (File c) →
  ensure_dir out w = Ok tt w0 →
  organize listing source out dry_run w = Raise NotADirectoryError w0.
Proof.
  intros Hs Hnode Hdir. unfold organize, bind at 1, path_exists.
  assert (OS.anchor (resolve source) = false) as Hanc.
  { unfold OS.node_at in Hnode. by destruct (OS.anchor (resolve source)). }
  assert (OS.node_at (fs w0) (resolve source) = Some (File c)) as Hnode0.
  { unfold OS.node_at in *. rewrite Hanc in *.
    pose proof (makedirs_dirs_added out w w0 _ Hdir (or_introl eq_refl))
      as Hadd.
    destruct (Hadd (resolve source)) as [->|[? _]]; congruence. }
  unfold OS.exists_. rewrite Hnode, bool_decide_eq_false_2 by done.
  rewrite bool_decide_eq_true_2 by eauto. cbn [negb andb].
  unfold bind at 1. rewrite Hdir.
  unfold bind at 1, OS.listdir, OS.isdir, OS.exists_. rewrite Hnode0.
  rewrite bool_decide_eq_false_2 by done.
  by rewrite bool_decide_eq_true_2 by eauto.
Qed.

Lemma organize_source_not_directory_witness :
  organize [] "inbox/a.txt" "out" false w_inbox =
  Raise NotADirectoryError (world_of (ensure_dir "out" w_inbox)).
Proof.
  apply (organize_source_not_directory [] "inbox/a.txt" "out" false
           (Bytes "A") w_inbox); [done|reflexivity|reflexivity].
Defined.

(** X18. The records a real run returns: one for each file it moved, in
    the order of the listing; [src] is the name joined to the source
    folder, [dest] a name joined to the folder of the file's category in
    the output folder, and neither is empty, so that [undo_moves] passes
    none of them over. *)
Theorem organize_records (listing : list string) (source out : string)
    (w w' : world) (entries : list json) :
  organize listing source out false w = Ok entries w' →
  ∃ moved, moved `sublist_of` listing ∧
    Forall2 (λ e n, ∃ ts cand,
               e = move_record ts (join source n)
                     (join (join out (category_of n)) cand) ∧
               join source n ≠ "" ∧
               join (join out (category_of n)) cand ≠ "") entries moved.
Proof.
  intros [(_ & -> & _)|(Hex & w0 & st & w1 & _ & _ & Hscan & -> & _)]
    %organize_inv.
  { exists []. split; [apply sublist_nil_l|constructor]. }
  apply organize_files_inv in Hscan as (new & moved & E & Hsub & Hrec & _).
  simpl in E. rewrite E. exists moved. split; [done|].
  assert (source ≠ "") as Hs.
  { intros ->. unfold OS.exists_ in Hex.
    by rewrite bool_decide_eq_true_2 in Hex. }
  eapply Forall2_impl; [exact Hrec|]. intros e n (ts & cand & ->).
  exists ts, cand. split; [done|]. split; apply join_nonempty_l; [done|].
  apply join_nonempty. by destruct (category_of_plain n) as [(_ & ? & _) _].
Qed.

Lemma organize_records_witness :
  ∃ moved, moved `sublist_of` ["a.txt"; "data.xyz"] ∧
    Forall2 (λ e n, ∃ ts cand,
               e = move_record ts (join "inbox" n)
                     (join (join "out" (category_of n)) cand) ∧
               join "inbox" n ≠ "" ∧
               join (join "out" (category_of n)) cand ≠ "")
      (value_of (organize ["a.txt"; "data.xyz"] "inbox" "out" false w_inbox)
         [])
      moved.
Proof.
  apply (organize_records ["a.txt"; "data.xyz"] "inbox" "out" w_inbox
           (world_of
              (organize ["a.txt"; "data.xyz"] "inbox" "out" false w_inbox))).
  by vm_compute.
Defined.

(** X19. The counters of a real scan, as the summary prints them: every
    file scanned was moved or failed, so the total is the number of
    records plus the number skipped; directories are in neither count; the
    counts by category add up to the number of records. *)
Theorem organize_files_counters (source out : string) (names : list string)
    (st : scan) (w w' : world) :
  organize_files source out false names (Scan [] [] 0 0) w = Ok st w' →
  total st = length (moved_entries st) + skipped st ∧
  sum_list (counts st).*2 = length (moved_entries st) ∧
  total st ≤ length names.
Proof.
  intros (new & moved & E & _ & _ & _ & Htot & Hle & Hsum & _)
    %organize_files_inv.
  simpl in *. rewrite E. split_and!; by (done || lia).
Qed.

Lemma organize_files_counters_witness :
  let st := value_of (organize_files "inbox" "out" false
                        ["a.txt"; "data.xyz"] (Scan [] [] 0 0) w_inbox)
              (Scan [] [] 0 0) in
  total st = length (moved_entries st) + skipped st ∧
  sum_list (counts st).*2 = length (moved_entries st) ∧
  total st ≤ length ["a.txt"; "data.xyz"].
Proof.
  apply (organize_files_counters "inbox" "out" ["a.txt"; "data.xyz"] _
           w_inbox
           (world_of (organize_files "inbox" "out" false
                        ["a.txt"; "data.xyz"] (Scan [] [] 0 0) w_inbox))).
  by vm_compute.
Defined.



(** X21. After a real run that returns records, the log file of the
    output folder holds a JSON list that ends with exactly these
    records. *)
Theorem organize_log_ends_with_records (listing : list string)
    (source out : string) (w w' : world) (entries : list json) :
  organize listing source out false w = Ok entries w' →
  entries ≠ [] →
  ∃ old, fs w' !! (resolve out ++ [LOG_FILENAME]) =
         Some (File (Json (JList (old ++ entries)))).
Proof.
  intros [(_ & -> & _)|(_ & w0 & st & w1 & _ & _ & _ & _ &
                        [[-> _]|(_ & w2 & w3 & _ & Hw & ->)])]%organize_inv;
    [done..|].
  intros _. apply write_log_inv in Hw as (w4 & _ & _ & ->).
  eexists. cbn [fs set_fs]. unfold log_key. by rewrite lookup_insert_eq.
Qed.

Lemma organize_log_ends_with_records_witness :
  let r := organize ["a.txt"; "data.xyz"] "inbox" "out" false w_inbox in
  ∃ old, fs (world_of r) !! (resolve "out" ++ [LOG_FILENAME]) =
         Some (File (Json (JList (old ++ value_of r [])))).
Proof.
  apply (organize_log_ends_with_records ["a.txt"; "data.xyz"] "inbox" "out"
           w_inbox); [by vm_compute|by vm_compute].
Defined.

(** *** [unique_dest_path] *)

Lemma rpartition_dot_None_cons (c : ascii) (s : string) :
  rpartition_dot (String c s) = None ↔ c ≠ extsep ∧ rpartition_dot s = None.
Proof.
  simpl. destruct (rpartition_dot s) as [[h t]|].
  { split; [done|]. by intros [_ ?]. }
  case_bool_decide; (split; [done|]); [by intros [? _]|done].
Qed.

Lemma rpartition_dot_app_None (s t : string) :
  rpartition_dot s = None → rpartition_dot t = None →
  rpartition_dot (s +:+ t) = None.
Proof.
  induction s as [|c s IH]; [done|]. rewrite str_app_cons.
  rewrite !rpartition_dot_None_cons. intros [Hc Hs] Ht. split; [done|].
  by apply IH.
Qed.

Lemma rpartition_dot_pretty_N_go (x : N) (s : string) :
  rpartition_dot s = None → rpartition_dot (pretty_N_go x s) = None.
Proof.
  revert s. induction (N.lt_wf_0 x) as [x _ IH]; intros s Hs.
  destruct (decide (x = 0)%N) as [->|Hx]; [by rewrite pretty_N_go_0|].
  rewrite pretty_N_go_step by lia. apply IH.
  - apply N.div_lt; lia.
  - apply rpartition_dot_None_cons. split; [|done].
    unfold pretty_N_char. by repeat case_match.
Qed.

Lemma rpartition_dot_pretty (n : nat) : rpartition_dot (pretty n) = None.
Proof.
  unfold pretty, pretty_nat, pretty, pretty_N.
  case_decide; [done|]. by apply rpartition_dot_pretty_N_go.
Qed.

Lemma rpartition_dot_paren (k : nat) :
  rpartition_dot ("(" +:+ pretty k +:+ ")") = None.
Proof.
  rewrite paren_app. apply rpartition_dot_None_cons. split; [done|].
  apply rpartition_dot_app_None; [apply rpartition_dot_pretty|done].
Qed.

Lemma rpartition_dot_app_r (t x s e : string) :
  rpartition_dot t = Some (s, e) → rpartition_dot x = None →
  rpartition_dot (t +:+ x) = Some (s, e +:+ x).
Proof.
  intros Ht Hx. revert s e Ht. induction t as [|c t IH]; intros s e; [done|].
  rewrite str_app_cons. simpl.
  destruct (rpartition_dot t) as [[h e']|] eqn:Hd.
  - intros [= <- <-]. by rewrite (IH h e').
  - rewrite rpartition_dot_app_None by done.
    case_bool_decide; [|done]. intros [= <- <-]. by rewrite str_app_cons.
Qed.

Lemma rpartition_dot_ext (t s e : string) :
  rpartition_dot t = Some (s, e) → rpartition_dot e = Some ("", e).
Proof.
  revert s e. induction t as [|c t IH]; intros s e; [done|]. simpl.
  destruct (rpartition_dot t) as [[h e']|] eqn:Hd.
  - intros [= <- <-]. by eapply IH.
  - case_bool_decide; [|done]. intros [= <- <-]. simpl. rewrite Hd.
    by rewrite bool_decide_eq_true_2.
Qed.

Lemma rpartition_dot_app_l (x e : string) :
  rpartition_dot e = Some ("", e) → rpartition_dot (x +:+ e) = Some (x, e).
Proof.
  intros He. induction x as [|c x IH]; [done|].
  rewrite str_app_cons. simpl. by rewrite IH.
Qed.

Lemma all_dots_app (a b : string) :
  all_dots (a +:+ b) = all_dots a && all_dots b.
Proof.
  induction a as [|c a IH]; [done|]. rewrite str_app_cons. simpl.
  rewrite IH. by destruct (bool_decide (c = extsep)).
Qed.

Lemma rpartition_no_sep (t : string) :
  no_sep t = true → rpartition t = ("", t).
Proof.
  induction t as [|c t IH]; [done|]. simpl.
  intros [Hc Ht]%andb_true_iff. rewrite IH by done. simpl.
  by destruct (is_sep c).
Qed.

Lemma rpartition_head (p : string) :
  (rpartition p).1 = "" ∨ endswith_sep (rpartition p).1 = true.
Proof.
  induction p as [|c p IH]; [by left|]. simpl.
  destruct (rpartition p) as [h t]. simpl in *.
  case_bool_decide as Hh.
  - destruct (is_sep c) eqn:Hc; simpl; [right|by left]. done.
  - right. simpl. destruct IH as [?|IH]; [done|]. by destruct h.
Qed.

Lemma rpartition_join (h t : string) :
  h = "" ∨ endswith_sep h = true → no_sep t = true →
  rpartition (h +:+ t) = (h, t).
Proof.
  intros [->|Hh] Ht.
  - by apply rpartition_no_sep.
  - by apply rpartition_endswith.
Qed.

Lemma splitext_numbered (filename : string) (k : nat) :
  splitext (numbered (splitext filename).1 (splitext filename).2 k) =
  ((splitext filename).1 +:+ "(" +:+ pretty k +:+ ")",
   (splitext filename).2).
Proof.
  destruct (rpartition_app filename) as [Hcat Hsep].
  pose proof (rpartition_head filename) as Hhead.
  pose proof (rpartition_dot_paren k) as Hparen.
  assert (no_sep ("(" +:+ pretty k +:+ ")") = true) as Hpsep.
  { rewrite paren_app. simpl. by rewrite no_sep_app, no_sep_pretty. }
  set (P := "(" +:+ pretty k +:+ ")") in *.
  assert (∀ b e, numbered b e k = b +:+ P +:+ e) as Hnum.
  { intros b e. unfold numbered, P. by rewrite !str_app_assoc. }
  rewrite Hnum. clearbody P.
  destruct (splitext filename) as [base ext] eqn:Hsp. simpl.
  unfold splitext in Hsp.
  destruct (rpartition filename) as [h t]. simpl in Hcat, Hsep, Hhead.
  destruct (rpartition_dot t) as [[stem e]|] eqn:Hdot.
  - pose proof (rpartition_dot_app _ _ _ Hdot) as Ht.
    pose proof Hsep as Hsep'.
    rewrite <- Ht, no_sep_app in Hsep'.
    apply andb_true_iff in Hsep' as [Hs He].
    destruct (all_dots stem) eqn:Hall; injection Hsp as <- <-.
    + rewrite str_app_empty_r. unfold splitext.
      rewrite <- Hcat, str_app_assoc.
      rewrite rpartition_join by (done || by rewrite no_sep_app, Hsep, Hpsep).
      rewrite (rpartition_dot_app_r t P stem e) by done.
      by rewrite Hall.
    + unfold splitext. rewrite !str_app_assoc.
      rewrite rpartition_join
        by (done || by rewrite !no_sep_app, Hs, He, Hpsep).
      rewrite <- (str_app_assoc stem P e).
      rewrite (rpartition_dot_app_l (stem +:+ P) e)
        by (by eapply rpartition_dot_ext).
      by rewrite all_dots_app, Hall.
  - injection Hsp as <- <-. rewrite str_app_empty_r. unfold splitext.
    rewrite <- Hcat, str_app_assoc.
    rewrite rpartition_join by (done || by rewrite no_sep_app, Hsep, Hpsep).
    by rewrite rpartition_dot_app_None.
Qed.

(** X22. The name [unique_dest_path] picks has the extension of the
    file name, numbered or not, so that it is of the same category; and
    it is a plain name when the file name is. The world is as it was. *)
Theorem unique_dest_path_keeps_extension (dest_dir filename : string)
    (w : world) :
  ∃ candidate,
    unique_dest_path dest_dir filename w = Ok (join dest_dir candidate) w ∧
    (splitext candidate).2 = (splitext filename).2 ∧
    category_of candidate = category_of filename ∧
    (plain filename → plain candidate).
Proof.
  pose proof (unique_loop_result w dest_dir (splitext filename).1
    (splitext filename).2 filename (size (fs w) + 2) (dom (fs w))) as H.
  rewrite size_dom in H.
  specialize (H (λ j _, numbered_exists_dom w dest_dir _ _ j)
                (reflexivity _)).
  destruct (unique_dest_path_fuel_enough w dest_dir filename)
    as (candidate & counter & Hl & Hu & Hfree).
  exists candidate. split; [done|].
  assert (candidate = filename ∨
          ∃ m, candidate = numbered (splitext filename).1
                             (splitext filename).2 m) as [->|[m ->]].
  { destruct (OS.exists_ w (join dest_dir filename)).
    - destruct H as (m & _ & Hl' & _). rewrite Hl in Hl'.
      injection Hl' as -> _. eauto.
    - rewrite Hl in H. injection H as -> _. by left. }
  { done. }
  split; [by rewrite splitext_numbered|].
  split; [unfold category_of; by rewrite splitext_numbered|].
  intros Hn. by apply plain_numbered.
Qed.

(** *** The scan never loses a file *)

Lemma contents_insert_dir (F : gmap (list string) node) (k : list string) :
  F !! k = None → contents (<[k := Dir]> F) ≡ₚ contents F.
Proof.
  intros Hk. unfold contents. by rewrite map_to_list_insert.
Qed.


Lemma contents_mkdirs (pre rest : list string)
    (F F' : gmap (list string) node) (r : exn + unit) :
  OS.mkdirs pre rest F = (r, F') → contents F' ≡ₚ contents F.
Proof.
  revert pre F. induction rest as [|c rest IH]; intros pre F; simpl.
  { by intros [= _ <-]. }
  destruct (OS.node_at F (pre ++ [c])) as [[c0|]|] eqn:Hq.
  - by intros [= _ <-].
  - apply IH.
  - intros ->%IH. by apply contents_insert_dir, node_at_None.
Qed.

Lemma contents_makedirs (p : string) (w w1 : world) (r : outcome unit) :
  OS.makedirs p w = r → world_of r = w1 →
  contents (fs w1) ≡ₚ contents (fs w).
Proof.
  unfold OS.makedirs. case_bool_decide; [by intros <- <-|].
  destruct (OS.mkdirs [] (resolve p) (fs w)) as [[e|[]] F'] eqn:Hmk;
    intros <- <-; simpl; by eapply contents_mkdirs.
Qed.

(** A move to a path that does not exist, when it returns. *)
Lemma move_to_free (src dst : string) (w w' : world) :
  OS.exists_ w dst = false → dst ≠ "" →
  OS.move src dst w = Ok tt w' →
  (∃ c, fs w !! resolve src = Some (File c) ∧
        fs w !! resolve dst = None ∧
        fs w' = <[resolve dst := File c]> (delete (resolve src) (fs w))) ∨
  (fs w !! resolve src = Some Dir ∧
   ¬ resolve src `prefix_of` resolve dst).
Proof.
  intros Hex Hd. unfold OS.exists_ in Hex.
  rewrite bool_decide_eq_false_2 in Hex by done. cbn [negb andb] in Hex.
  apply bool_decide_eq_false in Hex.
  apply eq_None_not_Some in Hex.
  unfold OS.move, OS.isdir. rewrite Hex. cbn [OS.is_dir].
  rewrite andb_false_r. cbn [andb].
  destruct (_ || _); [done|].
  destruct (OS.anchor (resolve src)); [done|].
  destruct (fs w !! resolve src) as [[c|]|] eqn:Hsrc; [| |done].
  - destruct (_ || _); [done|]. destruct (negb _); [done|].
    rewrite Hex. intros [= <-]. left. exists c. split; [done|].
    split; [by apply node_at_None|done].
  - destruct (_ || _); [done|]. destruct (negb _); [done|].
    rewrite Hex. case_bool_decide; [done|]. intros _. by right.
Qed.

Lemma dirs_added_Some (F G : gmap (list string) node) (k : list string)
    (x : node) :
  dirs_added F G → F !! k = Some x → G !! k = Some x.
Proof. intros Hadd Hk. destruct (Hadd k) as [->|[? _]]; congruence. Qed.

(** One round of the scan of a real run on a plain name, seen from the
    tree: directories are made, and then either nothing moves or one
    regular file goes to a free place in the folder of its category. *)
Lemma organize_file_fs (source out n : string) (st st' : scan)
    (w w' : world) :
  plain n →
  organize_file source out false n st w = Ok st' w' →
  ∃ w1, dirs_added (fs w) (fs w1) ∧ contents (fs w1) ≡ₚ contents (fs w) ∧
    ((fs w' = fs w1 ∧ moved_entries st' = moved_entries st) ∨
     (∃ c cand ts, plain cand ∧
        fs w1 !! (resolve source ++ [n]) = Some (File c) ∧
        fs w1 !! (resolve out ++ [category_of n; cand]) = None ∧
        fs w' = <[resolve out ++ [category_of n; cand] := File c]>
                  (delete (resolve source ++ [n]) (fs w1)) ∧
        moved_entries st' =
          moved_entries st ++
          [move_record ts (join source n)
             (join (join out (category_of n)) cand)])).
Proof.
  intros Hn [(_ & -> & ->)|(Hd & w1 & cand & Hdir & Hu & Hfree & Hmove)]
    %organize_file_cases.
  { exists w. split; [apply dirs_added_refl|]. split; [done|by left]. }
  exists w1. split; [eapply makedirs_dirs_added; eauto|].
  split; [by apply (contents_makedirs _ w w1 _ Hdir)|].
  destruct Hmove as [(e & _ & -> & ->)|(w2 & Hmove & -> & ->)]; [by left|].
  right.
  destruct (category_of_plain n) as [Hcat _].
  destruct (unique_dest_path_candidate (join out (category_of n)) n w1 Hn)
    as (cand' & Hu' & Hc' & _).
  rewrite Hu in Hu'. injection Hu' as Hpath. rewrite Hpath in *.
  apply move_to_free in Hmove
    as [(c & Ha & Hb & ->)|[Ha Hpre]]; [| |done|].
  - rewrite !resolve_join in * by done. rewrite <- (assoc_L (++)) in *.
    exists c, cand', (pretty (clock w2)). by split_and!.
  - exfalso. rewrite !resolve_join in * by done.
    unfold OS.isdir in Hd. rewrite resolve_join in Hd by done.
    rewrite node_at_snoc in Hd by done.
    rewrite bool_decide_eq_false_2 in Hd
      by (by apply join_nonempty, plain_nonempty).
    unfold ensure_dir in Hdir.
    destruct (makedirs_inv _ w _ w1 Hdir) as (_ & _ & _ & Hk); [eauto|].
    destruct (Hk (resolve source ++ [n])) as [E|(_ & _ & m & _ & Hm)].
    + rewrite Ha in E. by rewrite <- E in Hd.
    + apply Hpre. rewrite Hm, resolve_join by done.
      apply prefix_app_r, prefix_take.
  - apply join_nonempty_l, join_nonempty. by destruct Hcat as (_ & ? & _).
Qed.







(** *** The end of [undo_moves] *)

Lemma undo_moves_loop (output_folder : string) (entry : json)
    (log : list json) (w : world) :
  fs w !! (resolve output_folder ++ [LOG_FILENAME]) =
    Some (File (Json (JList (entry :: log)))) →
  undo_moves output_folder w =
  (let* failed := undo_entries (reverse (entry :: log)) [] in
   match failed with
   | [] =>
       try_except
         (OS.remove (join output_folder LOG_FILENAME) >>
          OS.print "Undo complete. Log removed.")
         (λ _, OS.print "Undo complete, but failed to remove log file.")
   | _ =>
       write_log output_folder (reverse failed) >>
       OS.print
         "Undo finished with some failures. Remaining failed entries saved to log."
   end) w.
Proof.
  intros HL. unfold undo_moves, bind at 1. rewrite load_log_eq.
  unfold log_key. by rewrite HL.
Qed.

(** X24. An undo in which every record was restored or passed over
    ends by removing the log file and saying so; when the log file is no
    longer a regular file by then, it says that instead and changes
    nothing. It does not raise. *)
Theorem undo_moves_complete (output_folder : string) (entry : json)
    (log : list json) (w w1 : world) :
  fs w !! (resolve output_folder ++ [LOG_FILENAME]) =
    Some (File (Json (JList (entry :: log)))) →
  undo_entries (reverse (entry :: log)) [] w = Ok [] w1 →
  undo_moves output_folder w =
  Ok tt
    (if OS.is_file (fs w1 !! (resolve output_folder ++ [LOG_FILENAME]))
     then World (delete (resolve output_folder ++ [LOG_FILENAME]) (fs w1))
            (denied w1) (console w1 ++ ["Undo complete. Log removed."])
            (clock w1)
     else World (fs w1) (denied w1)
            (console w1 ++ ["Undo complete, but failed to remove log file."])
            (clock w1)).
Proof.
  intros HL Hloop. rewrite (undo_moves_loop _ entry log) by done.
  unfold bind at 1. rewrite Hloop.
  unfold try_except, bind, OS.remove.
  rewrite log_path_nonempty, log_path_node. unfold log_key.
  rewrite resolve_join by apply plain_LOG_FILENAME.
  by destruct (fs w1 !! (resolve output_folder ++ [LOG_FILENAME]))
    as [[c|]|].
Qed.

Lemma undo_moves_complete_witness :
  let w := w_blocked [e_a] in
  let w1 := world_of (undo_entries (reverse [e_a]) [] w) in
  undo_moves "out" w =
  Ok tt
    (if OS.is_file (fs w1 !! (resolve "out" ++ [LOG_FILENAME]))
     then World (delete (resolve "out" ++ [LOG_FILENAME]) (fs w1))
            (denied w1) (console w1 ++ ["Undo complete. Log removed."])
            (clock w1)
     else World (fs w1) (denied w1)
            (console w1 ++ ["Undo complete, but failed to remove log file."])
            (clock w1)).
Proof.
  apply (undo_moves_complete "out" e_a [] (w_blocked [e_a])).
  - reflexivity.
  - by vm_compute.
Defined.

(** X25. An undo with failures ends by writing the failed records, in
    the order of the log, after what the log file holds at that moment:
    [write_log] appends. When that write returns, the log file holds the
    two lists one after the other; when it raises, so does [undo_moves]. *)
Theorem undo_moves_failures_appended (output_folder : string) (entry : json)
    (log failed : list json) (w w1 : world) :
  fs w !! (resolve output_folder ++ [LOG_FILENAME]) =
    Some (File (Json (JList (entry :: log)))) →
  undo_entries (reverse (entry :: log)) [] w = Ok failed w1 →
  failed ≠ [] →
  match write_log output_folder (reverse failed) w1 with
  | Ok _ w2 =>
      undo_moves output_folder w =
      Ok tt (World (fs w2) (denied w2)
               (console w2 ++
                ["Undo finished with some failures. Remaining failed entries saved to log."])
               (clock w2)) ∧
      fs w2 !! (resolve output_folder ++ [LOG_FILENAME]) =
      Some (File (Json (JList
        (log_content (fs w1 !! (resolve output_folder ++ [LOG_FILENAME])) ++
         reverse failed))))
  | Raise e w2 => undo_moves output_folder w = Raise e w2
  end.
Proof.
  intros HL Hloop Hne. rewrite (undo_moves_loop _ entry log) by done.
  unfold bind. rewrite Hloop.
  destruct failed as [|f failed]; [done|].
  destruct (write_log output_folder (reverse (f :: failed)) w1)
    as [[] w2|e w2] eqn:Hw; [|done].
  split; [done|].
  apply write_log_inv in Hw as (w0 & _ & _ & ->). cbn [fs set_fs].
  unfold log_key. by rewrite lookup_insert_eq.
Qed.

Lemma undo_moves_failures_appended_witness :
  let w := w_blocked [e_a; e_b] in
  let w1 := world_of (undo_entries (reverse [e_a; e_b]) [] w) in
  match write_log "out" (reverse [e_b]) w1 with
  | Ok _ w2 =>
      undo_moves "out" w =
      Ok tt (World (fs w2) (denied w2)
               (console w2 ++
                ["Undo finished with some failures. Remaining failed entries saved to log."])
               (clock w2)) ∧
      fs w2 !! (resolve "out" ++ [LOG_FILENAME]) =
      Some (File (Json (JList
        (log_content (fs w1 !! (resolve "out" ++ [LOG_FILENAME])) ++
         reverse [e_b]))))
  | Raise e w2 => undo_moves "out" w = Raise e w2
  end.
Proof.
  apply (undo_moves_failures_appended "out" e_a [e_b] [e_b]
           (w_blocked [e_a; e_b])).
  - reflexivity.
  - by vm_compute.
  - discriminate.
Defined.

(** *** Where the files go *)

(** A regular file that is not one of the names scanned stays where it
    is. *)
Lemma organize_files_keep (source out : string) (names : list string)
    (k : list string) (c : content) :
  ∀ (st st' : scan) (w w' : world),
    Forall plain names →
    (∀ n, n ∈ names → k ≠ resolve source ++ [n]) →
    fs w !! k = Some (File c) →
    organize_files source out false names st w = Ok st' w' →
    fs w' !! k = Some (File c).
Proof.
  induction names as [|n names IH]; intros st st' w w' Hplain Hk Hfile; simpl.
  { by intros [= <- <-]. }
  apply Forall_cons in Hplain as [Hn Hplain].
  unfold bind at 1.
  destruct (organize_file source out false n st w) as [st1 w1|] eqn:Hstep;
    [|done].
  apply organize_file_fs in Hstep as (w0 & Hadd & _ & Hstep); [|done].
  apply (dirs_added_Some _ _ k (File c) Hadd) in Hfile.
  apply IH; [done|intros n' Hn'; apply Hk; by right|].
  destruct Hstep as [[-> _]|(c' & cand & ts & _ & Ha & Hb & -> & _)]; [done|].
  rewrite lookup_insert_ne by congruence.
  rewrite lookup_delete_ne; [done|]. apply not_eq_sym, Hk. by left.
Qed.

Lemma organize_files_places (source out : string) (names : list string) :
  ∀ (st st' : scan) (w w' : world),
    NoDup names → Forall plain names →
    (∀ n, n ∈ names → is_Some (fs w !! (resolve source ++ [n]))) →
    organize_files source out false names st w = Ok st' w' →
    ∃ new, moved_entries st' = moved_entries st ++ new ∧
      ∀ n c, n ∈ names →
        fs w !! (resolve source ++ [n]) = Some (File c) →
        (∃ ts cand,
           move_record ts (join source n)
             (join (join out (category_of n)) cand) ∈ new ∧
           fs w' !! (resolve out ++ [category_of n; cand]) = Some (File c)) ∨
        fs w' !! (resolve source ++ [n]) = Some (File c).
Proof.
  induction names as [|n0 names IH]; intros st st' w w' Hnd Hplain Hpres;
    simpl.
  { intros [= <- <-]. exists []. rewrite app_nil_r. split; [done|].
    intros n c Hn. by apply elem_of_nil in Hn. }
  apply NoDup_cons in Hnd as [Hn0 Hnd].
  apply Forall_cons in Hplain as [Hp0 Hplain].
  unfold bind at 1.
  destruct (organize_file source out false n0 st w) as [st1 w1|] eqn:Hstep;
    [|done].
  apply organize_file_fs in Hstep as (w0 & Hadd & _ & Hstep); [|done].
  intros Hrest.
  assert (∀ n, n ∈ names →
            resolve source ++ [n] ≠ resolve source ++ [n0]) as Hne.
  { intros n Hn [= ->]%(inj (app (resolve source))). done. }
  assert (∀ n x, n ∈ names → fs w !! (resolve source ++ [n]) = Some x →
                 fs w1 !! (resolve source ++ [n]) = Some x) as Hkeep1.
  { intros n x Hn Hx. apply (dirs_added_Some _ _ _ _ Hadd) in Hx.
    destruct Hstep as [[-> _]|(c' & cand & ts & _ & Ha & Hb & -> & _)];
      [done|].
    rewrite lookup_insert_ne by congruence.
    rewrite lookup_delete_ne; [done|]. by apply not_eq_sym, Hne. }
  destruct (IH st1 st' w1 w' Hnd Hplain) as (new & Hnew & Hplace);
    [|done|].
  { intros n Hn. destruct (Hpres n) as [x Hx]; [by right|]. eauto. }
  assert (∀ n, n ∈ names →
            ∀ k, fs w0 !! k = None → k ≠ resolve source ++ [n]) as Hfree.
  { intros n Hn k Hk ->. destruct (Hpres n) as [x Hx]; [by right|].
    apply (dirs_added_Some _ _ _ _ Hadd) in Hx. congruence. }
  destruct Hstep as [[E1 E2]|(c' & cand & ts & Hc & Ha & Hb & E1 & E2)].
  - exists new. split; [congruence|].
    intros n c [->|Hn]%elem_of_cons Hfile; [|by apply Hplace, Hkeep1].
    right. apply (dirs_added_Some _ _ _ _ Hadd) in Hfile.
    eapply (organize_files_keep source out names); [done| |by rewrite E1|done].
    intros n Hn. by apply not_eq_sym, Hne.
  - eexists (_ :: new). split; [by rewrite Hnew, E2, <- (assoc_L (++))|].
    intros n c [->|Hn]%elem_of_cons Hfile.
    + left. exists ts, cand. split; [by left|].
      apply (dirs_added_Some _ _ _ _ Hadd) in Hfile.
      assert (c' = c) as -> by congruence.
      eapply (organize_files_keep source out names); [done| | |done].
      * intros n Hn. by apply (Hfree n).
      * rewrite E1. by rewrite lookup_insert_eq.
    + destruct (Hplace n c Hn) as [(ts' & cand' & Hin & Hat)|Hat];
        [by apply Hkeep1| |by right].
      left. exists ts', cand'. split; [by right|done].
Qed.

(** X26. Where a real run leaves the files: every regular file of the
    listing, other than the log file itself, is after the run either in
    the folder of its category in the output folder, with its content and
    with a record of the move among those returned, or still at its path
    in the source folder, with its content. *)
Theorem organize_places_files (listing : list string) (source out : string)
    (w w' : world) (entries : list json) (n : string) (c : content) :
  NoDup listing → Forall plain listing →
  (∀ n', n' ∈ listing → is_Some (fs w !! (resolve source ++ [n']))) →
  organize listing source out false w = Ok entries w' →
  n ∈ listing →
  fs w !! (resolve source ++ [n]) = Some (File c) →
  resolve source ++ [n] ≠ resolve out ++ [LOG_FILENAME] →
  (∃ ts cand,
     move_record ts (join source n)
       (join (join out (category_of n)) cand) ∈ entries ∧
     fs w' !! (resolve out ++ [category_of n; cand]) = Some (File c)) ∨
  fs w' !! (resolve source ++ [n]) = Some (File c).
Proof.
  intros Hnd Hplain Hpres
    [(_ & _ & ->)|(_ & w0 & st & w1 & Hdir & _ & Hscan & -> & Hlog)]
    %organize_inv Hn Hfile Hnl; [by right|].
  pose proof (makedirs_dirs_added _ _ w0 _ Hdir (or_introl eq_refl)) as Hadd.
  apply organize_files_places in Hscan as (new & Hnew & Hplace);
    [|done|done|].
  2: { intros n' Hn'. destruct (Hpres n' Hn') as [x Hx].
       exists x. by eapply dirs_added_Some. }
  simpl in Hnew. rewrite Hnew.
  assert (∀ k x, k ≠ resolve out ++ [LOG_FILENAME] →
            fs w1 !! k = Some x → fs w' !! k = Some x) as Hend.
  { intros k x Hk Hx.
    destruct Hlog as [[_ ->]|(_ & w2 & w3 & E2 & Hw & ->)]; [done|].
    apply write_log_inv in Hw as (w4 & Hdir4 & _ & ->). cbn [fs set_fs].
    unfold log_key. rewrite lookup_insert_ne by done.
    apply (dirs_added_Some (fs w2)); [|by rewrite E2].
    eapply makedirs_dirs_added; eauto. }
  destruct (Hplace n c Hn) as [(ts & cand & Hin & Hat)|Hat].
  - by eapply dirs_added_Some.
  - left. exists ts, cand. split; [done|]. apply Hend; [|done].
    intros Heq. apply (f_equal length) in Heq.
    rewrite !length_app in Heq. simpl in Heq. lia.
  - right. by apply Hend.
Qed.

Lemma organize_places_files_witness :
  (∃ ts cand,
     move_record ts (join "inbox" "a.txt")
       (join (join "out" (category_of "a.txt")) cand) ∈
       value_of (organize ["a.txt"; "data.xyz"] "inbox" "out" false w_inbox)
         [] ∧
     fs (world_of (organize ["a.txt"; "data.xyz"] "inbox" "out" false
                     w_inbox))
       !! (resolve "out" ++ [category_of "a.txt"; cand]) =
       Some (File (Bytes "A"))) ∨
  fs (world_of (organize ["a.txt"; "data.xyz"] "inbox" "out" false w_inbox))
    !! (resolve "inbox" ++ ["a.txt"]) = Some (File (Bytes "A")).
Proof.
  apply (organize_places_files ["a.txt"; "data.xyz"] "inbox" "out" w_inbox).
  - by apply (bool_decide_unpack _).
  - repeat (apply Forall_cons_2; [by split_and!|]). apply Forall_nil_2.
  - intros n' Hn'.
    repeat (apply elem_of_cons in Hn' as [->|Hn']; [by eexists|]).
    by apply elem_of_nil in Hn'.
  - by vm_compute.
  - by left.
  - reflexivity.
  - discriminate.
Defined.
